(** * Fee-ledger reconstruction

    A shallow embedding of [database/conversion/complete_fee_transformation.py]
    (class [CompleteFeeDataTransformer]) and the properties of its ledger
    reconstruction, receipt numbering and row emission.

    Conventions of the embedding.
    - A row of a legacy CSV file is a record.  An amount cell that is
      missing, or that Python treats as false, is [None]; a receipt number
      that is missing or [None] is [None].
    - Money is an integer number of minor units ([Z]); the source computes on
      [float] and prints with two decimals.  [float(row.get(k, 0) or 0)] is
      [amount_of]: the cell's value, zero when the cell is missing.
    - Text is [string] (bytes).  [str(x)] of a cell is the text of the cell.
      [str.upper], [str.strip] and the digits of a regular expression act on
      ASCII characters.
    - The four fee components are always mapped ([create_fee_components]
      runs before any receipt is transformed).
    - [uuid.uuid4()] draws from a supply of identifiers that never repeats;
      the supply is a counter threaded through the state.
    - [pandas.to_datetime] is a parameter of the development: a partial
      function from text to a point in time.
    - Exceptions are values of [exn]; a computation that may raise returns a
      [result]. *)

From Stdlib Require Import ZArith Lia Ascii String Decimal DecimalString DecimalNat.
From Stdlib Require Import Sorted.
From stdpp Require Import base option list gmap strings pretty.

Local Open Scope string_scope.
Local Open Scope list_scope.
Local Open Scope Z_scope.

(** ** Exceptions *)

Inductive exn : Type :=
| FileNotFoundError
| ZeroDivisionError
| FuelExhausted.

Inductive result (A : Type) : Type :=
| Ok (a : A)
| Raise (e : exn).
Arguments Ok {A} a.
Arguments Raise {A} e.

Global Instance result_ret : MRet result := fun A a => Ok a.

Global Instance result_bind : MBind result := fun A B k m =>
  match m with
  | Ok a => k a
  | Raise e => Raise e
  end.

(** ** Text helpers: [str.strip] and the [%06d] format *)

Module Text.

(** The ASCII characters for which Python's [str.isspace] holds. *)
Definition py_isspace (a : ascii) : bool :=
  let n := nat_of_ascii a in
  ((9 <=? n)%nat && (n <=? 13)%nat) || ((28 <=? n)%nat && (n <=? 32)%nat).

Fixpoint lstrip (s : string) : string :=
  match s with
  | String a s' => if py_isspace a then lstrip s' else s
  | EmptyString => EmptyString
  end.

Definition rstrip (s : string) : string := String.rev (lstrip (String.rev s)).

Definition strip (s : string) : string := rstrip (lstrip s).

Fixpoint zeros (k : nat) : string :=
  match k with
  | O => EmptyString
  | S k' => String "0" (zeros k')
  end.

(** [str.zfill(6)] on a string of digits. *)
Definition zfill6 (s : string) : string :=
  zeros (6 - String.length s) +:+ s.

(** [f"{n:06d}"] for a non-negative [n]. *)
Definition format_06d (n : nat) : string :=
  zfill6 (NilEmpty.string_of_uint (Nat.to_uint n)).

(** Reading a decimal numeral back; used to show the format injective. *)
Definition read_nat (s : string) : option nat :=
  option_map Nat.of_uint (NilEmpty.uint_of_string s).

End Text.

(** [f"MIG-{counter:06d}"] *)
Definition mig (counter : nat) : string := "MIG-" +:+ Text.format_06d counter.

(** ** Receipt numbering *)

(** The [while True] loop of [generate_unique_receipt_number]: returns the
    first free synthetic number at or after [counter], and the counter after
    it.  [fuel] bounds the number of iterations of the model. *)
Fixpoint mig_loop (fuel : nat) (used : gset string) (counter : nat)
  : result (string * nat) :=
  match fuel with
  | O => Raise FuelExhausted
  | S fuel' =>
      let new_receipt_no := mig counter in
      if decide (new_receipt_no ∈ used)
      then mig_loop fuel' used (S counter)
      else Ok (new_receipt_no, S counter)
  end.

(** The two attributes [generate_unique_receipt_number] mutates. *)
Record numbering : Type := {
  used_receipt_numbers : gset string;
  receipt_counter : nat
}.

Definition numbering_init : numbering :=
  {| used_receipt_numbers := ∅; receipt_counter := 1 |}.

(** The original number is kept when this holds. *)
Definition keeps_original (used : gset string) (legacy_receipt_no : option string)
  : option string :=
  match legacy_receipt_no with
  | Some no =>
      let clean_receipt_no := Text.strip no in
      if decide (clean_receipt_no ≠ "" ∧ clean_receipt_no ≠ "0"
                 ∧ clean_receipt_no ∉ used)
      then Some clean_receipt_no else None
  | None => None
  end.

Definition generate_unique_receipt_number (n : numbering)
    (legacy_receipt_no : option string) : result (string * numbering) :=
  match keeps_original (used_receipt_numbers n) legacy_receipt_no with
  | Some clean_receipt_no =>
      Ok (clean_receipt_no,
          {| used_receipt_numbers := {[clean_receipt_no]} ∪ used_receipt_numbers n;
             receipt_counter := receipt_counter n |})
  | None =>
      '(new_receipt_no, counter') ←
        mig_loop (S (size (used_receipt_numbers n)))
                 (used_receipt_numbers n) (receipt_counter n);
      Ok (new_receipt_no,
          {| used_receipt_numbers := {[new_receipt_no]} ∪ used_receipt_numbers n;
             receipt_counter := counter' |})
  end.


(** ** The legacy tables *)

(** The four legacy amount columns; they are also the keys of
    [fee_component_mappings]. *)
Inductive field : Type := reg_fee | sec_fee | tut_fee | other_fee.

Global Instance field_eq_dec : EqDecision field.
Proof. solve_decision. Defined.

(** The order of [['reg_fee', 'sec_fee', 'tut_fee', 'other_fee']], which is
    also the insertion order of the dictionaries keyed by field. *)
Definition fields : list field := [reg_fee; sec_fee; tut_fee; other_fee].

Record fee_component : Type := {
  fc_id : string;
  fc_code : string;
  fc_label : string;
  fc_legacy_field : field
}.

(** [create_fee_components]: the table is a constant of the program, set
    before any receipt is transformed. *)
Definition fee_component_mappings (f : field) : fee_component :=
  match f with
  | reg_fee =>
      {| fc_id := "6dd45f0c-5e4d-4024-8a50-494761a01c33"; fc_code := "ADMISSION";
         fc_label := "Admission Fee"; fc_legacy_field := reg_fee |}
  | sec_fee =>
      {| fc_id := "1c2c736d-2d77-4956-8b5b-2ad385d032e0"; fc_code := "SECURITY";
         fc_label := "Security Fee"; fc_legacy_field := sec_fee |}
  | tut_fee =>
      {| fc_id := "dd319c9-03de-4595-88a5-a2c3807f99bd"; fc_code := "TUITION";
         fc_label := "Tuition Fee"; fc_legacy_field := tut_fee |}
  | other_fee =>
      {| fc_id := "50456145-6cad-4b8c-a05c-22dd74e4a40a"; fc_code := "OTHER";
         fc_label := "Other Fee"; fc_legacy_field := other_fee |}
  end.

(** A row of the legacy receipts file.  [lr_id] and [lr_student_id] hold
    [str(row['id'])] and [str(row['student_id'])]. *)
Record legacy_receipt : Type := {
  lr_id : string;
  lr_student_id : string;
  lr_enrol_id : string;
  lr_fee_date : option string;
  lr_reg_fee : option Z;
  lr_sec_fee : option Z;
  lr_tut_fee : option Z;
  lr_other_fee : option Z;
  lr_is_cancelled : bool;
  lr_receipt_no : option string
}.

(** A row of the legacy balance-after file. *)
Record balance_record : Type := {
  br_feereceipt_id : string;
  br_reg_balance : option Z;
  br_sec_balance : option Z;
  br_tut_balance : option Z;
  br_other_balance : option Z
}.

(** A value of [enrollment_lookup]. *)
Record enrollment : Type := {
  enrollment_id : string;
  en_student_id : string;
  en_course_id : string;
  en_session_id : string
}.

(** Rows of the two mapping files read by [load_mappings]. *)
Record enrollment_row : Type := {
  er_enrollment_code : string;
  er_id : string;
  er_student_id : string;
  er_course_id : string;
  er_session_id : string
}.

Record student_row : Type := {
  sr_legacy_student_id : option string;
  sr_id : string
}.

(** [float(receipt.get(field, 0) or 0)] *)
Definition amount_of (receipt : legacy_receipt) (f : field) : Z :=
  from_option id 0
    match f with
    | reg_fee => lr_reg_fee receipt
    | sec_fee => lr_sec_fee receipt
    | tut_fee => lr_tut_fee receipt
    | other_fee => lr_other_fee receipt
    end.

Global Arguments amount_of : simpl never.

(** [float(balance_record.get(balance_field, 0) or 0)], where a missing
    balance record is the empty dictionary. *)
Definition balance_of (record : option balance_record) (f : field) : Z :=
  match record with
  | None => 0
  | Some b =>
      from_option id 0
        match f with
        | reg_fee => br_reg_balance b
        | sec_fee => br_sec_balance b
        | tut_fee => br_tut_balance b
        | other_fee => br_other_balance b
        end
  end.

Global Arguments balance_of : simpl never.

(** ** Dictionaries that are iterated: association lists in insertion order *)

Fixpoint dict_get {V : Type} (k : string) (d : list (string * V)) : option V :=
  match d with
  | [] => None
  | (k', v) :: d' => if decide (k' = k) then Some v else dict_get k d'
  end.

(** [d[k] = v] *)
Fixpoint dict_set {V : Type} (k : string) (v : V) (d : list (string * V))
  : list (string * V) :=
  match d with
  | [] => [(k, v)]
  | (k', v') :: d' =>
      if decide (k' = k) then (k, v) :: d' else (k', v') :: dict_set k v d'
  end.

(** [if k not in d: d[k] = []] followed by [d[k].append(x)] *)
Fixpoint dict_append {V : Type} (k : string) (x : V) (d : list (string * list V))
  : list (string * list V) :=
  match d with
  | [] => [(k, [x])]
  | (k', xs) :: d' =>
      if decide (k' = k) then (k', xs ++ [x]) :: d'
      else (k', xs) :: dict_append k x d'
  end.

(** The attributes of the transformer that are only read while receipts are
    transformed. *)
Record tables : Type := {
  enrollment_lookup : list (string * enrollment);
  student_lookup : gmap string string;
  legacy_receipts : list legacy_receipt;
  legacy_balance_records : list balance_record
}.

(** ** Dates *)

(** [pandas.to_datetime] on text, and the value of
    [pd.to_datetime('2023-01-01')]. *)
Class DateParser : Type := {
  to_datetime : string -> option Z;
  fallback_timestamp : Z
}.

Definition starts_with_00 (s : string) : bool :=
  match s with
  | String "0" (String "0" _) => true
  | _ => false
  end.

Definition safe_parse_date `{DateParser} (date_str : option string) : Z :=
  match date_str with
  | None => fallback_timestamp
  | Some s =>
      if decide (s = "") then fallback_timestamp
      else
        let s1 := Text.strip s in
        let s2 := if starts_with_00 s1
                  then "20" +:+ String.substring 2 (String.length s1 - 2) s1
                  else s1 in
        from_option id fallback_timestamp (to_datetime s2)
  end.

(** [list.sort(key=...)]: a stable sort. *)
Fixpoint insert_by {A : Type} (key : A -> Z) (x : A) (l : list A) : list A :=
  match l with
  | [] => [x]
  | y :: l' => if key x <=? key y then x :: l else y :: insert_by key x l'
  end.

Fixpoint sort_by {A : Type} (key : A -> Z) (l : list A) : list A :=
  match l with
  | [] => []
  | x :: l' => insert_by key x (sort_by key l')
  end.

(** ** Resolving a receipt to an enrollment *)

Definition is_digit (a : ascii) : bool :=
  let n := nat_of_ascii a in ((48 <=? n)%nat && (n <=? 57)%nat).

Fixpoint span_digits (l : list ascii) : list ascii * list ascii :=
  match l with
  | a :: l' =>
      if is_digit a then let '(ds, rest) := span_digits l' in (a :: ds, rest)
      else ([], l)
  | [] => ([], [])
  end.

(** [re.search(r'/(\d+)/\d{4}$', s)]: the group, when the text ends (up to
    one final newline) with a slash, digits, a slash and four digits.  The
    text is read from its end; digits are the ASCII digits. *)
Definition extract_student_id (s : string) : option string :=
  let r := rev (list_ascii_of_string s) in
  let r := match r with
           | "010"%char :: r' => r'
           | _ => r
           end in
  match r with
  | y4 :: y3 :: y2 :: y1 :: "/"%char :: r' =>
      if is_digit y4 && is_digit y3 && is_digit y2 && is_digit y1 then
        match span_digits r' with
        | (d :: ds, "/"%char :: _) => Some (string_of_list_ascii (rev (d :: ds)))
        | _ => None
        end
      else None
  | _ => None
  end.

(** The scan [for enrol_code, enrol_data in self.enrollment_lookup.items()]. *)
Definition enrollment_of_student (lookup : list (string * enrollment))
    (mapped_student_id : string) : option string :=
  (fun p => enrollment_id (snd p)) <$>
    List.find (fun p => bool_decide (en_student_id (snd p) = mapped_student_id))
              lookup.

Definition find_enrollment_id (T : tables) (legacy_receipt : legacy_receipt)
  : option string :=
  let enrol_id := lr_enrol_id legacy_receipt in
  let by_student (legacy_student_id : string) : option string :=
    match student_lookup T !! legacy_student_id with
    | Some mapped_student_id =>
        enrollment_of_student (enrollment_lookup T) mapped_student_id
    | None => None
    end in
  (* Strategy 1 *)
  match (if decide (enrol_id = "") then None
         else dict_get enrol_id (enrollment_lookup T)) with
  | Some e => Some (enrollment_id e)
  | None =>
      (* Strategy 2 *)
      match by_student (lr_student_id legacy_receipt) with
      | Some e => Some e
      | None =>
          (* Strategy 3 *)
          if decide (enrol_id = "") then None
          else
            match extract_student_id enrol_id with
            | Some extracted_student_id => by_student extracted_student_id
            | None => None
            end
      end
  end.

(** [if not enrollment_id]: neither [None] nor the empty string. *)
Definition resolved (T : tables) (receipt : legacy_receipt) : option string :=
  match find_enrollment_id T receipt with
  | Some e => if decide (e = "") then None else Some e
  | None => None
  end.

Definition calculate_total_amount (receipt : legacy_receipt) : Z :=
  0 + amount_of receipt reg_fee + amount_of receipt sec_fee
    + amount_of receipt tut_fee + amount_of receipt other_fee.

Definition find_balance_record (T : tables) (receipt_id : string)
  : option balance_record :=
  List.find (fun b => bool_decide (br_feereceipt_id b = receipt_id))
            (legacy_balance_records T).

(** ** Reconstruction of one enrollment's history *)

Inductive event_type : Type :=
| CHARGE_CREATED
| PAYMENT_RECEIVED
| PAYMENT_CANCELLED.

Global Instance event_type_eq_dec : EqDecision event_type.
Proof. solve_decision. Defined.

(** An element of [fee_events]. *)
Record fee_event : Type := {
  fe_receipt : legacy_receipt;
  fe_component : field;
  fe_event_type : event_type;
  fe_amount : Z;
  fe_running_balance : Z;
  fe_is_initial_charge : bool
}.

(** The receipts of the student that resolve to the enrollment, by date. *)
Definition student_receipts `{DateParser} (T : tables)
    (student_id enrollment_id : string) : list legacy_receipt :=
  sort_by (fun x => safe_parse_date (lr_fee_date x))
    (List.filter
       (fun receipt =>
          bool_decide (lr_student_id receipt = student_id)
          && bool_decide (find_enrollment_id T receipt = Some enrollment_id))
       (legacy_receipts T)).

(** The dictionaries [charge_event] and [payment_event]. *)
Definition charge_event (receipt : legacy_receipt) (component : field)
    (balance_before : Z) : fee_event :=
  {| fe_receipt := receipt; fe_component := component;
     fe_event_type := CHARGE_CREATED;
     fe_amount := balance_before;
     fe_running_balance := balance_before;
     fe_is_initial_charge := true |}.

Definition payment_event (receipt : legacy_receipt) (component : field)
    (payment_amount balance_after : Z) : fee_event :=
  {| fe_receipt := receipt; fe_component := component;
     fe_event_type := PAYMENT_RECEIVED;
     fe_amount := - payment_amount;
     fe_running_balance := balance_after;
     fe_is_initial_charge := false |}.

(** The loop under [if not fee_events]. *)
Definition charge_events (T : tables) (receipt : legacy_receipt)
  : list fee_event :=
  let balance_record := find_balance_record T (lr_id receipt) in
  flat_map
    (fun component =>
       let payment_amount := amount_of receipt component in
       if 0 <? payment_amount then
         let balance_before := balance_of balance_record component + payment_amount in
         if 0 <? balance_before then
           [charge_event receipt component balance_before]
         else []
       else [])
    fields.

(** The loop that creates the payment events of a receipt. *)
Definition payment_events (T : tables) (receipt : legacy_receipt)
  : list fee_event :=
  let balance_record := find_balance_record T (lr_id receipt) in
  flat_map
    (fun component =>
       let payment_amount := amount_of receipt component in
       if 0 <? payment_amount then
         [payment_event receipt component payment_amount
                        (balance_of balance_record component)]
       else [])
    fields.

(** The body of [for receipt in student_receipts]. *)
Definition history_step (T : tables) (fee_events : list fee_event)
    (receipt : legacy_receipt) : list fee_event :=
  let fee_events :=
    match fee_events with
    | [] => fee_events ++ charge_events T receipt
    | _ :: _ => fee_events
    end in
  fee_events ++ payment_events T receipt.

Definition reconstruct_student_fee_history `{DateParser} (T : tables)
    (student_id enrollment_id : string) : list fee_event :=
  fold_left (history_step T) (student_receipts T student_id enrollment_id) [].

(** ** Output rows *)

Definition uid : Type := nat.

Inductive receipt_status : Type := ACTIVE | CANCELLED.

Global Instance receipt_status_eq_dec : EqDecision receipt_status.
Proof. solve_decision. Defined.

(** The columns of the four output tables that carry identifiers, amounts,
    types and provenance.  The remaining columns are constants or copies of
    the legacy row ([academic_year], [payment_method], dates, descriptions). *)
Record receipt_row : Type := {
  rr_id : uid;
  rr_receipt_number : string;
  rr_receipt_date : option string;
  rr_enrollment_id : string;
  rr_total_amount : Z;
  rr_paid_amount : Z;
  rr_balance_amount : Z;
  rr_legacy_reg_fee : Z;
  rr_legacy_sec_fee : Z;
  rr_legacy_tut_fee : Z;
  rr_legacy_other_fee : Z;
  rr_status : receipt_status;
  rr_legacy_receipt_id : string
}.

Record ledger_event : Type := {
  e_id : uid;
  e_event_type : event_type;
  e_event_date : option string;
  e_enrollment_id : string;
  e_fee_component_id : string;
  e_amount : Z;
  e_running_balance : Z;
  e_receipt_id : option uid;
  e_legacy_receipt_id : string
}.

Record allocation_row : Type := {
  a_id : uid;
  a_receipt_id : uid;
  a_ledger_event_id : uid;
  a_fee_component_id : string;
  a_allocated_amount : Z;
  a_enrollment_id : string;
  a_legacy_record_id : string
}.

Record balance_row : Type := {
  b_id : uid;
  b_receipt_id : uid;
  b_fee_component_id : string;
  b_charge_amount : Z;
  b_paid_amount : Z;
  b_balance_amount : Z;
  b_enrollment_id : string;
  b_legacy_record_id : string
}.

(** The attributes of the transformer that [transform_all_receipts] writes. *)
Record state : Type := {
  numbers : numbering;
  uuid_supply : uid;
  transformed_receipts : list receipt_row;
  transformed_events : list ledger_event;
  transformed_allocations : list allocation_row;
  transformed_balance_records : list balance_row
}.

Definition state_init : state :=
  {| numbers := numbering_init; uuid_supply := O;
     transformed_receipts := []; transformed_events := [];
     transformed_allocations := []; transformed_balance_records := [] |}.

Definition uuid4 (st : state) : uid * state :=
  (uuid_supply st,
   {| numbers := numbers st; uuid_supply := S (uuid_supply st);
      transformed_receipts := transformed_receipts st;
      transformed_events := transformed_events st;
      transformed_allocations := transformed_allocations st;
      transformed_balance_records := transformed_balance_records st |}).

Definition set_numbers (n : numbering) (st : state) : state :=
  {| numbers := n; uuid_supply := uuid_supply st;
     transformed_receipts := transformed_receipts st;
     transformed_events := transformed_events st;
     transformed_allocations := transformed_allocations st;
     transformed_balance_records := transformed_balance_records st |}.

Definition append_receipt (r : receipt_row) (st : state) : state :=
  {| numbers := numbers st; uuid_supply := uuid_supply st;
     transformed_receipts := transformed_receipts st ++ [r];
     transformed_events := transformed_events st;
     transformed_allocations := transformed_allocations st;
     transformed_balance_records := transformed_balance_records st |}.

Definition append_event (e : ledger_event) (st : state) : state :=
  {| numbers := numbers st; uuid_supply := uuid_supply st;
     transformed_receipts := transformed_receipts st;
     transformed_events := transformed_events st ++ [e];
     transformed_allocations := transformed_allocations st;
     transformed_balance_records := transformed_balance_records st |}.

Definition append_allocation (a : allocation_row) (st : state) : state :=
  {| numbers := numbers st; uuid_supply := uuid_supply st;
     transformed_receipts := transformed_receipts st;
     transformed_events := transformed_events st;
     transformed_allocations := transformed_allocations st ++ [a];
     transformed_balance_records := transformed_balance_records st |}.

Definition append_balance_record (b : balance_row) (st : state) : state :=
  {| numbers := numbers st; uuid_supply := uuid_supply st;
     transformed_receipts := transformed_receipts st;
     transformed_events := transformed_events st;
     transformed_allocations := transformed_allocations st;
     transformed_balance_records := transformed_balance_records st ++ [b] |}.

(** ** First loop of [transform_all_receipts]: one history per enrollment *)

(** The body of the grouping loop [for receipt in self.legacy_receipts]. *)
Definition group_step (T : tables)
    (enrollment_receipts : list (string * list legacy_receipt))
    (receipt : legacy_receipt) : list (string * list legacy_receipt) :=
  match resolved T receipt with
  | Some enrollment_id => dict_append enrollment_id receipt enrollment_receipts
  | None => enrollment_receipts
  end.

(** [enrollment_receipts]: the resolved receipts, grouped by enrollment in
    the order in which the enrollments are first met. *)
Definition group_receipts (T : tables) : list (string * list legacy_receipt) :=
  fold_left (group_step T) (legacy_receipts T) [].

(** The ledger event written for one element of [fee_events]. *)
Definition emit_history_event (enrollment_id : string) (st : state)
    (event : fee_event) : state :=
  let receipt := fe_receipt event in
  let fee_component_info := fee_component_mappings (fe_component event) in
  let '(event_id, st) := uuid4 st in
  let '(receipt_id, st) :=
    if fe_is_initial_charge event then (None, st)
    else let '(u, st) := uuid4 st in (Some u, st) in
  append_event
    {| e_id := event_id;
       e_event_type := fe_event_type event;
       e_event_date := lr_fee_date receipt;
       e_enrollment_id := enrollment_id;
       e_fee_component_id := fc_id fee_component_info;
       e_amount := fe_amount event;
       e_running_balance := fe_running_balance event;
       e_receipt_id := receipt_id;
       e_legacy_receipt_id := lr_id receipt |}
    st.

(** The body of [for enrollment_id, receipts in enrollment_receipts.items()].
    [receipts[0]] exists: a group is created with its first receipt
    ([group_receipts_nonempty]). *)
Definition history_group `{DateParser} (T : tables)
    (acc : gset string * state) (item : string * list legacy_receipt)
  : gset string * state :=
  let '(processed_enrollments, st) := acc in
  let '(enrollment_id, receipts) := item in
  if decide (enrollment_id ∈ processed_enrollments) then acc
  else
    let processed_enrollments := {[enrollment_id]} ∪ processed_enrollments in
    match receipts with
    | [] => (processed_enrollments, st)
    | first :: _ =>
        let student_id := lr_student_id first in
        let fee_events :=
          reconstruct_student_fee_history T student_id enrollment_id in
        (processed_enrollments,
         fold_left (emit_history_event enrollment_id) fee_events st)
    end.

Definition history_pass `{DateParser} (T : tables) (st : state) : state :=
  snd (fold_left (history_group T) (group_receipts T) (∅, st)).

(** ** Second loop of [transform_all_receipts]: one receipt at a time *)

(** The body of the first [for field in [...]]: a ledger event and an
    allocation for a component with a positive amount. *)
Definition emit_component (receipt : legacy_receipt) (enrollment_id : string)
    (receipt_id : uid) (acc : Z * state) (f : field) : Z * state :=
  let '(running_balance, st) := acc in
  let amount := amount_of receipt f in
  if 0 <? amount then
    let component := fee_component_mappings f in
    let event_type :=
      if lr_is_cancelled receipt then PAYMENT_CANCELLED else PAYMENT_RECEIVED in
    let '(event_id, st) := uuid4 st in
    let running_balance := running_balance - amount in
    let st :=
      append_event
        {| e_id := event_id;
           e_event_type := event_type;
           e_event_date := lr_fee_date receipt;
           e_enrollment_id := enrollment_id;
           e_fee_component_id := fc_id component;
           e_amount := amount;
           e_running_balance := running_balance;
           e_receipt_id := Some receipt_id;
           e_legacy_receipt_id := lr_id receipt |}
        st in
    let '(allocation_id, st) := uuid4 st in
    let st :=
      append_allocation
        {| a_id := allocation_id;
           a_receipt_id := receipt_id;
           a_ledger_event_id := event_id;
           a_fee_component_id := fc_id component;
           a_allocated_amount := amount;
           a_enrollment_id := enrollment_id;
           a_legacy_record_id := lr_id receipt |}
        st in
    (running_balance, st)
  else acc.

(** The body of the second [for field in [...]]: a balance record. *)
Definition emit_balance_record (T : tables) (receipt : legacy_receipt)
    (enrollment_id : string) (receipt_id : uid) (st : state) (f : field)
  : state :=
  let balance_record_data := find_balance_record T (lr_id receipt) in
  let amount_paid := amount_of receipt f in
  let balance_after := balance_of balance_record_data f in
  let charge_amount := balance_after + amount_paid in
  if (0 <? charge_amount) || (0 <? amount_paid) then
    let component := fee_component_mappings f in
    let '(record_id, st) := uuid4 st in
    append_balance_record
      {| b_id := record_id;
         b_receipt_id := receipt_id;
         b_fee_component_id := fc_id component;
         b_charge_amount := charge_amount;
         b_paid_amount := amount_paid;
         b_balance_amount := balance_after;
         b_enrollment_id := enrollment_id;
         b_legacy_record_id := lr_id receipt |}
      st
  else st.

(** The dictionary [receipt_record]. *)
Definition receipt_record (receipt_id : uid) (unique_receipt_number : string)
    (receipt : legacy_receipt) (enrollment_id : string) : receipt_row :=
  let total_amount := calculate_total_amount receipt in
  let is_cancelled := lr_is_cancelled receipt in
  let receipt_status := if is_cancelled then CANCELLED else ACTIVE in
  {| rr_id := receipt_id;
     rr_receipt_number := unique_receipt_number;
     rr_receipt_date := lr_fee_date receipt;
     rr_enrollment_id := enrollment_id;
     rr_total_amount := total_amount;
     rr_paid_amount := total_amount;
     rr_balance_amount := 0;
     rr_legacy_reg_fee := amount_of receipt reg_fee;
     rr_legacy_sec_fee := amount_of receipt sec_fee;
     rr_legacy_tut_fee := amount_of receipt tut_fee;
     rr_legacy_other_fee := amount_of receipt other_fee;
     rr_status := receipt_status;
     rr_legacy_receipt_id := lr_id receipt |}.

(** The body of [for receipt in self.legacy_receipts]. *)
Definition process_receipt (T : tables) (st : state) (receipt : legacy_receipt)
  : result state :=
  match resolved T receipt with
  | None => Ok st
  | Some enrollment_id =>
      let '(receipt_id, st) := uuid4 st in
      '(unique_receipt_number, n) ←
        generate_unique_receipt_number (numbers st) (lr_receipt_no receipt);
      let st := set_numbers n st in
      let st :=
        append_receipt
          (receipt_record receipt_id unique_receipt_number receipt enrollment_id)
          st in
      let st :=
        snd (fold_left (emit_component receipt enrollment_id receipt_id)
                       fields (0, st)) in
      let st :=
        fold_left (emit_balance_record T receipt enrollment_id receipt_id)
                  fields st in
      Ok st
  end.

Fixpoint receipts_pass (T : tables) (receipts : list legacy_receipt)
    (st : state) : result state :=
  match receipts with
  | [] => Ok st
  | receipt :: receipts' =>
      st' ← process_receipt T st receipt;
      receipts_pass T receipts' st'
  end.

(** The two loops, then the summary: the success rate it prints divides by
    [len(self.legacy_receipts)]. *)
Definition transform_all_receipts `{DateParser} (T : tables) (st : state)
  : result state :=
  let st := history_pass T st in
  st ← receipts_pass T (legacy_receipts T) st;
  match legacy_receipts T with
  | [] => Raise ZeroDivisionError
  | _ :: _ => Ok st
  end.

(** ** Files: loading, saving, and the whole run *)

(** The input files; [None] is a file that does not exist. *)
Record input_files : Type := {
  enrollment_file : option (list enrollment_row);
  student_file : option (list student_row);
  legacy_receipts_file : option (list legacy_receipt);
  legacy_balance_file : option (list balance_record)
}.

(** The output directory; [None] is a file that has not been written. *)
Record output_files : Type := {
  receipts_csv : option (list receipt_row);
  events_csv : option (list ledger_event);
  allocations_csv : option (list allocation_row);
  balance_records_csv : option (list balance_row);
  import_script : bool
}.

Definition no_output : output_files :=
  {| receipts_csv := None; events_csv := None; allocations_csv := None;
     balance_records_csv := None; import_script := false |}.

(** [load_mappings]: a file that does not exist leaves its lookup empty. *)
Definition load_mappings (files : input_files)
  : list (string * enrollment) * gmap string string :=
  let enrollment_lookup :=
    match enrollment_file files with
    | Some rows =>
        fold_left
          (fun lookup row =>
             dict_set (er_enrollment_code row)
               {| enrollment_id := er_id row; en_student_id := er_student_id row;
                  en_course_id := er_course_id row;
                  en_session_id := er_session_id row |}
               lookup)
          rows []
    | None => []
    end in
  let student_lookup :=
    match student_file files with
    | Some rows =>
        fold_left
          (fun (lookup : gmap string string) row =>
             match sr_legacy_student_id row with
             | Some legacy_student_id => <[legacy_student_id := sr_id row]> lookup
             | None => lookup
             end)
          rows ∅
    | None => ∅
    end in
  (enrollment_lookup, student_lookup).

(** [load_legacy_data]: only the receipts file is required. *)
Definition load_legacy_data (files : input_files)
  : result (list legacy_receipt * list balance_record) :=
  match legacy_receipts_file files with
  | None => Raise FileNotFoundError
  | Some legacy_receipts =>
      Ok (legacy_receipts, from_option id [] (legacy_balance_file files))
  end.

(** [save_transformed_data]: a table is written when it has a row. *)
Definition save_transformed_data (st : state) (out : output_files)
  : output_files :=
  let write {A : Type} (rows : list A) (old : option (list A)) :=
    match rows with
    | [] => old
    | _ :: _ => Some rows
    end in
  {| receipts_csv := write (transformed_receipts st) (receipts_csv out);
     events_csv := write (transformed_events st) (events_csv out);
     allocations_csv := write (transformed_allocations st) (allocations_csv out);
     balance_records_csv :=
       write (transformed_balance_records st) (balance_records_csv out);
     import_script := import_script out |}.

Definition generate_import_script (out : output_files) : output_files :=
  {| receipts_csv := receipts_csv out; events_csv := events_csv out;
     allocations_csv := allocations_csv out;
     balance_records_csv := balance_records_csv out;
     import_script := true |}.

(** [run_complete_transformation] from an empty output directory: what has
    been written when the run ends, and the exception it ends with, if any. *)
Definition run_complete_transformation `{DateParser} (files : input_files)
  : output_files * option exn :=
  let '(enrollment_lookup, student_lookup) := load_mappings files in
  match load_legacy_data files with
  | Raise e => (no_output, Some e)
  | Ok (legacy_receipts, legacy_balance_records) =>
      let T := {| enrollment_lookup := enrollment_lookup;
                  student_lookup := student_lookup;
                  legacy_receipts := legacy_receipts;
                  legacy_balance_records := legacy_balance_records |} in
      match transform_all_receipts T state_init with
      | Raise e => (no_output, Some e)
      | Ok st =>
          (generate_import_script (save_transformed_data st no_output), None)
      end
  end.

(** ** A date parser for ISO dates, to run the model on examples *)

Definition two_digits (a b : ascii) : option Z :=
  if is_digit a && is_digit b
  then Some (Z.of_nat ((nat_of_ascii a - 48) * 10 + (nat_of_ascii b - 48)))
  else None.

(** [YYYY-MM-DD] to the number [YYYYMMDD]; no other text is a date. *)
Definition iso_to_datetime (s : string) : option Z :=
  match list_ascii_of_string s with
  | [y1; y2; y3; y4; "-"%char; m1; m2; "-"%char; d1; d2] =>
      hi ← two_digits y1 y2;
      lo ← two_digits y3 y4;
      m ← two_digits m1 m2;
      d ← two_digits d1 d2;
      Some ((hi * 100 + lo) * 10000 + m * 100 + d)
  | _ => None
  end.

Definition iso_dates : DateParser :=
  {| to_datetime := iso_to_datetime; fallback_timestamp := 20230101 |}.

(** ** Vocabulary of the properties *)

(** The components of a receipt with a strictly positive amount. *)
Definition positive_fields (receipt : legacy_receipt) : list field :=
  List.filter (fun f => 0 <? amount_of receipt f) fields.

Definition is_resolved (T : tables) (receipt : legacy_receipt) : bool :=
  bool_decide (is_Some (resolved T receipt)).

(** The receipts whose enrollment resolves, in input order. *)
Definition resolved_of (T : tables) (receipts : list legacy_receipt)
  : list legacy_receipt :=
  List.filter (is_resolved T) receipts.

Definition resolved_receipts (T : tables) : list legacy_receipt :=
  resolved_of T (legacy_receipts T).

(** The ledger event and the allocation that the second loop writes for
    component [f] of a receipt; their identifiers are drawn in [lo, hi). *)
Definition component_rows_ok (receipt : legacy_receipt) (E : string)
    (receipt_id lo hi : uid) (f : field) (p : ledger_event * allocation_row)
  : Prop :=
  let e := fst p in
  let a := snd p in
  e_event_type e
    = (if lr_is_cancelled receipt then PAYMENT_CANCELLED else PAYMENT_RECEIVED)
  ∧ e_event_date e = lr_fee_date receipt
  ∧ e_enrollment_id e = E
  ∧ e_fee_component_id e = fc_id (fee_component_mappings f)
  ∧ e_amount e = amount_of receipt f
  ∧ e_running_balance e < 0
  ∧ e_receipt_id e = Some receipt_id
  ∧ e_legacy_receipt_id e = lr_id receipt
  ∧ (lo <= e_id e < hi)%nat
  ∧ a_receipt_id a = receipt_id
  ∧ a_ledger_event_id a = e_id e
  ∧ a_fee_component_id a = fc_id (fee_component_mappings f)
  ∧ a_allocated_amount a = amount_of receipt f
  ∧ a_enrollment_id a = E
  ∧ a_legacy_record_id a = lr_id receipt
  ∧ (lo <= a_id a < hi)%nat.

(** What the second loop writes for one resolved receipt: its receipt row,
    and an event and an allocation per positive component. *)
Definition batch : Type := receipt_row * list (ledger_event * allocation_row).

(** The trace of the second loop over the resolved receipts: numbering
    state and identifier supply before and after. *)
Inductive batches_ok (T : tables)
  : numbering -> uid -> list legacy_receipt -> list batch -> numbering -> uid -> Prop :=
| batches_nil (n : numbering) (s : uid) : batches_ok T n s [] [] n s
| batches_cons (n n1 n2 : numbering) (s s1 s2 : uid) (r : legacy_receipt)
    (rs : list legacy_receipt) (bs : list batch) (E number : string)
    (pairs : list (ledger_event * allocation_row)) :
    resolved T r = Some E ->
    generate_unique_receipt_number n (lr_receipt_no r) = Ok (number, n1) ->
    (s < s1)%nat ->
    Forall2 (component_rows_ok r E s (S s) s1) (positive_fields r) pairs ->
    batches_ok T n1 s1 rs bs n2 s2 ->
    batches_ok T n s (r :: rs) ((receipt_record s number r E, pairs) :: bs) n2 s2.

(** The ledger event that the first loop writes for an element of
    [fee_events]; its identifiers are drawn in [lo, hi). *)
Definition event_of_fee (E : string) (lo hi : uid) (ev : fee_event)
    (e : ledger_event) : Prop :=
  e_event_type e = fe_event_type ev
  ∧ e_event_date e = lr_fee_date (fe_receipt ev)
  ∧ e_enrollment_id e = E
  ∧ e_fee_component_id e = fc_id (fee_component_mappings (fe_component ev))
  ∧ e_amount e = fe_amount ev
  ∧ e_running_balance e = fe_running_balance ev
  ∧ e_legacy_receipt_id e = lr_id (fe_receipt ev)
  ∧ (lo <= e_id e < hi)%nat
  ∧ (if fe_is_initial_charge ev then e_receipt_id e = None
     else ∃ u : uid, e_receipt_id e = Some u ∧ (lo <= u < hi)%nat).

(** The history reconstructed for one entry of [enrollment_receipts]. *)
Definition enrollment_history `{DateParser} (T : tables)
    (item : string * list legacy_receipt) : list (string * fee_event) :=
  match snd item with
  | [] => []
  | first :: _ =>
      (fun ev => (fst item, ev)) <$>
        reconstruct_student_fee_history T (lr_student_id first) (fst item)
  end.

(** The first receipt, in the given order, with a positive component. *)
Definition has_payment (receipt : legacy_receipt) : bool :=
  existsb (fun f => 0 <? amount_of receipt f) fields.

Definition opening_receipt (receipts : list legacy_receipt)
  : option legacy_receipt :=
  List.find has_payment receipts.

(** The balance-after snapshot of a receipt for a component. *)
Definition snapshot (T : tables) (receipt : legacy_receipt) (f : field) : Z :=
  balance_of (find_balance_record T (lr_id receipt)) f.

(** Type, signed amount and running balance of a ledger event. *)
Definition ledger_view (e : ledger_event) : event_type * Z * Z :=
  (e_event_type e, e_amount e, e_running_balance e).

(** The receipts that resolve to enrollment [E]. *)
Definition of_enrollment (T : tables) (E : string) (receipt : legacy_receipt)
  : bool :=
  bool_decide (resolved T receipt = Some E).

(** The events of an (enrollment, component) pair, in the order of the list. *)
Definition pair_events (E component_id : string) (events : list ledger_event)
  : list ledger_event :=
  List.filter
    (fun e => bool_decide (e_enrollment_id e = E)
              && bool_decide (e_fee_component_id e = component_id))
    events.


(** A receipt row carries its legacy receipt faithfully. *)
Definition receipt_row_ok (T : tables) (r : legacy_receipt) (row : receipt_row)
  : Prop :=
  rr_legacy_receipt_id row = lr_id r
  ∧ resolved T r = Some (rr_enrollment_id row)
  ∧ (rr_status row = CANCELLED <-> lr_is_cancelled r = true)
  ∧ rr_total_amount row
    = amount_of r reg_fee + amount_of r sec_fee + amount_of r tut_fee
      + amount_of r other_fee
  ∧ rr_paid_amount row = rr_total_amount row.



(** Type, signed amount and running balance of an element of [fee_events]. *)
Definition fee_view (ev : fee_event) : event_type * Z * Z :=
  (fe_event_type ev, fe_amount ev, fe_running_balance ev).










(** The elements of [fee_events] of component [f]. *)
Definition is_component (f : field) (ev : fee_event) : bool :=
  bool_decide (fe_component ev = f).

(** Case analysis on which of the four amounts of a receipt are positive. *)
Ltac case_amounts r :=
  destruct (0 <? amount_of r reg_fee) eqn:?,
           (0 <? amount_of r sec_fee) eqn:?,
           (0 <? amount_of r tut_fee) eqn:?,
           (0 <? amount_of r other_fee) eqn:?.







(** The ledger events that reference a legacy receipt and a component. *)
Definition events_of_receipt (st : state) (r : legacy_receipt) (f : field)
  : list ledger_event :=
  List.filter
    (fun e => bool_decide (e_legacy_receipt_id e = lr_id r)
              && bool_decide (e_fee_component_id e
                              = fc_id (fee_component_mappings f)))
    (transformed_events st).

(** Claim C10 for one receipt and component: two distinct events reference
    them, one from the history pass (negative amount, a receipt link that is
    the identifier of no receipt row) and one from the per-receipt pass
    (linked to the receipt row of the legacy receipt). *)
Definition recorded_twice (st : state) (r : legacy_receipt) (f : field) : Prop :=
  ∃ (e1 e2 : ledger_event) (row : receipt_row),
    e1 ∈ events_of_receipt st r f
    ∧ e2 ∈ events_of_receipt st r f
    ∧ e_id e1 ≠ e_id e2
    ∧ e_amount e1 = - amount_of r f
    ∧ (∀ row', row' ∈ transformed_receipts st ->
               e_receipt_id e1 ≠ Some (rr_id row'))
    ∧ e_amount e2 = amount_of r f
    ∧ row ∈ transformed_receipts st
    ∧ rr_legacy_receipt_id row = lr_id r
    ∧ e_receipt_id e2 = Some (rr_id row).

(** ** Sample inputs *)

Module Sample.

Definition receipt (id student enrol date : string)
    (reg sec tut other : option Z) (cancelled : bool) (no : option string)
  : legacy_receipt :=
  {| lr_id := id; lr_student_id := student; lr_enrol_id := enrol;
     lr_fee_date := Some date;
     lr_reg_fee := reg; lr_sec_fee := sec; lr_tut_fee := tut;
     lr_other_fee := other;
     lr_is_cancelled := cancelled; lr_receipt_no := no |}.

Definition snapshot_row (receipt_id : string) (reg sec tut other : option Z)
  : balance_record :=
  {| br_feereceipt_id := receipt_id; br_reg_balance := reg;
     br_sec_balance := sec; br_tut_balance := tut; br_other_balance := other |}.

Definition enrollment_E1 : enrollment :=
  {| enrollment_id := "E-1"; en_student_id := "S-1";
     en_course_id := "C-1"; en_session_id := "X-1" |}.

Definition lookup_E1 : list (string * enrollment) :=
  [("AIMT(H)/10384/2023", enrollment_E1)].

Definition students_S1 : gmap string string := {[ "10384" := "S-1" ]}.

(** The scenario of the specification: two tuition receipts of 45000, the
    first leaving a balance of 45000, the second a balance of 0. *)
Definition two_tuition_receipts : tables :=
  {| enrollment_lookup := lookup_E1;
     student_lookup := students_S1;
     legacy_receipts :=
       [ receipt "A" "10384" "AIMT(H)/10384/2023" "2023-07-01"
                 None None (Some 45000) None false (Some "17");
         receipt "B" "10384" "AIMT(H)/10384/2023" "2024-08-12"
                 None None (Some 45000) None false (Some "17") ];
     legacy_balance_records :=
       [ snapshot_row "A" None None (Some 45000) None;
         snapshot_row "B" None None (Some 0) None ] |}.

(** A first receipt that pays only the admission fee while 500 of tuition
    is owed, then a receipt that pays 50 of tuition. *)
Definition admission_then_tuition : tables :=
  {| enrollment_lookup := lookup_E1;
     student_lookup := students_S1;
     legacy_receipts :=
       [ receipt "1" "10384" "AIMT(H)/10384/2023" "2023-07-01"
                 (Some 100) None None None false (Some "1");
         receipt "2" "10384" "AIMT(H)/10384/2023" "2023-08-01"
                 None None (Some 50) None false (Some "2") ];
     legacy_balance_records :=
       [ snapshot_row "1" (Some 0) None (Some 500) None;
         snapshot_row "2" (Some 0) None (Some 450) None ] |}.

(** Two receipts that carry the same enrollment code and different legacy
    student identifiers. *)
Definition other_student_receipt : legacy_receipt :=
  receipt "2" "20001" "AIMT(H)/10384/2023" "2023-08-01"
          None None (Some 70) None false (Some "2").

Definition shared_enrollment_code : tables :=
  {| enrollment_lookup := lookup_E1;
     student_lookup := students_S1;
     legacy_receipts :=
       [ receipt "1" "10384" "AIMT(H)/10384/2023" "2023-07-01"
                 None None (Some 100) None false (Some "1");
         other_student_receipt ];
     legacy_balance_records := [] |}.

(** One receipt that pays 100 of tuition and leaves a balance of 50, and
    the same receipt with the cancellation flag set. *)
Definition tuition_100 : legacy_receipt :=
  receipt "7" "10384" "AIMT(H)/10384/2023" "2023-07-01"
          None None (Some 100) None false (Some "7").

Definition tuition_100_cancelled : legacy_receipt :=
  receipt "7" "10384" "AIMT(H)/10384/2023" "2023-07-01"
          None None (Some 100) None true (Some "7").

Definition one_receipt (r : legacy_receipt) : tables :=
  {| enrollment_lookup := lookup_E1;
     student_lookup := students_S1;
     legacy_receipts := [r];
     legacy_balance_records := [ snapshot_row "7" None None (Some 50) None ] |}.


(** Input files: everything present but the student table; everything
    present but the enrollment table; no legacy receipts file. *)
Definition enrollment_rows : list enrollment_row :=
  [ {| er_enrollment_code := "AIMT(H)/10384/2023"; er_id := "E-1";
       er_student_id := "S-1"; er_course_id := "C-1"; er_session_id := "X-1" |} ].

Definition student_rows : list student_row :=
  [ {| sr_legacy_student_id := Some "10384"; sr_id := "S-1" |} ].

Definition files_without_students : input_files :=
  {| enrollment_file := Some enrollment_rows;
     student_file := None;
     legacy_receipts_file := Some [tuition_100];
     legacy_balance_file := None |}.

Definition files_without_enrollments : input_files :=
  {| enrollment_file := None;
     student_file := Some student_rows;
     legacy_receipts_file := Some [tuition_100];
     legacy_balance_file := None |}.

Definition files_without_receipts : input_files :=
  {| enrollment_file := Some enrollment_rows;
     student_file := Some student_rows;
     legacy_receipts_file := None;
     legacy_balance_file := None |}.

End Sample.

(** ** The tables of a run, and further sample inputs *)

(** The transformer's tables once [load_mappings] and [load_legacy_data]
    have run. *)
Definition tables_of (files : input_files) (receipts : list legacy_receipt)
  : tables :=
  {| enrollment_lookup := fst (load_mappings files);
     student_lookup := snd (load_mappings files);
     legacy_receipts := receipts;
     legacy_balance_records := default [] (legacy_balance_file files) |}.

(** The value that [load_mappings] stores for a row of the enrollment file. *)
Definition enrollment_of_row (row : enrollment_row) : enrollment :=
  {| enrollment_id := er_id row; en_student_id := er_student_id row;
     en_course_id := er_course_id row; en_session_id := er_session_id row |}.


(** ** Vocabulary of the further properties *)

(** The components for which the second loop writes a balance record. *)
Definition has_balance (T : tables) (r : legacy_receipt) (f : field) : bool :=
  (0 <? snapshot T r f + amount_of r f) || (0 <? amount_of r f).

Definition balance_fields (T : tables) (r : legacy_receipt) : list field :=
  List.filter (has_balance T r) fields.

(** The balance record of component [f] of a receipt whose row is
    [receipt_id]. *)
Definition balance_row_ok (T : tables) (r : legacy_receipt) (E : string)
    (receipt_id : uid) (f : field) (b : balance_row) : Prop :=
  b_receipt_id b = receipt_id
  ∧ b_fee_component_id b = fc_id (fee_component_mappings f)
  ∧ b_charge_amount b = snapshot T r f + amount_of r f
  ∧ b_paid_amount b = amount_of r f
  ∧ b_balance_amount b = snapshot T r f
  ∧ b_enrollment_id b = E
  ∧ b_legacy_record_id b = lr_id r.

(** The balance records of one resolved receipt: it has a receipt row, and
    one record for each of its [balance_fields], in the order of the fields. *)
Definition balance_rows_ok (T : tables) (st : state) (r : legacy_receipt)
    (rows : list balance_row) : Prop :=
  ∃ (E : string) (row : receipt_row),
    resolved T r = Some E
    ∧ row ∈ transformed_receipts st
    ∧ rr_legacy_receipt_id row = lr_id r
    ∧ Forall2 (balance_row_ok T r E (rr_id row)) (balance_fields T r) rows.

(** Where a ledger event comes from: a legacy receipt [r] that resolves to
    the event's enrollment and a component [f] with a strictly positive
    amount on it.  The event is the opening charge of the component, its
    payment event in the history pass, or its event in the per-receipt pass. *)
Definition event_from (T : tables) (r : legacy_receipt) (f : field)
    (e : ledger_event) : Prop :=
  r ∈ legacy_receipts T
  ∧ resolved T r = Some (e_enrollment_id e)
  ∧ 0 < amount_of r f
  ∧ e_fee_component_id e = fc_id (fee_component_mappings f)
  ∧ e_legacy_receipt_id e = lr_id r
  ∧ e_event_date e = lr_fee_date r
  ∧ ((e_event_type e = CHARGE_CREATED
      ∧ e_amount e = snapshot T r f + amount_of r f
      ∧ e_running_balance e = snapshot T r f + amount_of r f
      ∧ 0 < snapshot T r f + amount_of r f
      ∧ e_receipt_id e = None)
     ∨ (e_event_type e = PAYMENT_RECEIVED
        ∧ e_amount e = - amount_of r f
        ∧ e_running_balance e = snapshot T r f
        ∧ is_Some (e_receipt_id e))
     ∨ (e_event_type e
          = (if lr_is_cancelled r then PAYMENT_CANCELLED else PAYMENT_RECEIVED)
        ∧ e_amount e = amount_of r f
        ∧ e_running_balance e < 0
        ∧ is_Some (e_receipt_id e))).

(** Further sample inputs. *)
Module Cases.

(** An enrollment file in which one code occurs on two rows. *)
Definition repeated_code_rows : list enrollment_row :=
  [ {| er_enrollment_code := "AIMT(H)/10384/2023"; er_id := "E-1";
       er_student_id := "S-1"; er_course_id := "C-1"; er_session_id := "X-1" |};
    {| er_enrollment_code := "AIMT(H)/10384/2023"; er_id := "E-2";
       er_student_id := "S-1"; er_course_id := "C-2"; er_session_id := "X-2" |} ].

Definition files_with_repeated_code : input_files :=
  {| enrollment_file := Some repeated_code_rows;
     student_file := Some Sample.student_rows;
     legacy_receipts_file := Some [Sample.tuition_100];
     legacy_balance_file := None |}.

(** A receipt whose enrollment code and student identifier are unknown to
    the tables, and whose code carries a known student identifier. *)
Definition unknown_code_receipt : legacy_receipt :=
  Sample.receipt "9" "999" "BCA/10384/2024" "2024-08-01"
                 None None (Some 10) None false None.

(** A student file in which a legacy identifier occurs on two rows, with a
    row without legacy identifier between them. *)
Definition two_student_rows : list student_row :=
  [ {| sr_legacy_student_id := Some "10384"; sr_id := "S-1" |};
    {| sr_legacy_student_id := None; sr_id := "S-2" |};
    {| sr_legacy_student_id := Some "10384"; sr_id := "S-3" |} ].

Definition files_with_two_students : input_files :=
  {| enrollment_file := Some Sample.enrollment_rows;
     student_file := Some two_student_rows;
     legacy_receipts_file := Some [Sample.tuition_100];
     legacy_balance_file := None |}.

(** A legacy receipts file with a header and no row. *)
Definition files_with_no_receipt : input_files :=
  {| enrollment_file := Some Sample.enrollment_rows;
     student_file := Some Sample.student_rows;
     legacy_receipts_file := Some [];
     legacy_balance_file := None |}.


End Cases.








(** ** Payment methods *)

(** [str.upper] on ASCII text. *)
Definition upper_char (a : ascii) : ascii :=
  let n := nat_of_ascii a in
  if (97 <=? n)%nat && (n <=? 122)%nat then ascii_of_nat (n - 32) else a.

Fixpoint upper (s : string) : string :=
  match s with
  | String a s' => String (upper_char a) (upper s')
  | EmptyString => EmptyString
  end.

(** The dictionary [mappings] of [standardize_payment_method]. *)
Definition payment_method_mappings : list (string * string) :=
  [ ("CASH", "CASH"); ("BANK", "BANK"); ("QR PHONEPE", "QR_PHONEPE");
    ("QR PHONEPAY", "QR_PHONEPE"); ("QR HDFC", "QR_HDFC"); ("SWIPE", "SWIPE");
    ("CHEQUE", "CHEQUE"); ("DD", "DD"); ("QR", "QR") ].

(** [None] is a missing cell. *)
Definition standardize_payment_method (method : option string) : string :=
  match method with
  | None => "OTHER"
  | Some method =>
      if decide (method = "") then "OTHER"
      else
        let method := upper (Text.strip method) in
        from_option id "OTHER" (dict_get method payment_method_mappings)
  end.

(** Text made of white space only. *)
Fixpoint blank (s : string) : bool :=
  match s with
  | String a s' => Text.py_isspace a && blank s'
  | EmptyString => true
  end.

(** ** Academic years *)

(** [dt.year] and [dt.month] of a point in time. *)
Class Calendar : Type := {
  year_of : Z -> Z;
  month_of : Z -> Z
}.

(** [s[2:]] *)
Definition drop2 (s : string) : string :=
  String.substring 2 (String.length s - 2) s.

(** [str(n)] of an integer is [pretty n].  [safe_parse_date] does not raise,
    so the [except] branch of the source is not taken. *)
Definition determine_academic_year `{DateParser} `{Calendar}
    (date_str : option string) : string :=
  let dt := safe_parse_date date_str in
  let year := year_of dt in
  if 7 <=? month_of dt
  then pretty year +:+ "-" +:+ drop2 (pretty (year + 1))
  else pretty (year - 1) +:+ "-" +:+ drop2 (pretty year).

(** Year and month of the numbers [YYYYMMDD] of [iso_dates]. *)
Definition iso_calendar : Calendar :=
  {| year_of := fun t => t / 10000; month_of := fun t => (t / 100) mod 100 |}.

(* ================================================================== *)
(** * Properties *)
(* ================================================================== *)

(** ** Running the model on small inputs *)

Example mig_7 : mig 7 = "MIG-000007".
Proof. reflexivity. Qed.

Example strip_pads : Text.strip "  A 12 " = "A 12".
Proof. reflexivity. Qed.

Example extract_student_id_code :
  extract_student_id "AIMT(H)/10384/2023" = Some "10384".
Proof. reflexivity. Qed.

Example extract_student_id_no_year : extract_student_id "AIMT(H)/10384/23" = None.
Proof. reflexivity. Qed.

Example iso_date_july : iso_to_datetime "2023-07-01" = Some 20230701.
Proof. reflexivity. Qed.

(** The scenario of the specification: an opening charge of 90000, then the
    two payments with the running balances of the legacy snapshots. *)
Example two_tuition_receipts_history :
  fee_view <$> reconstruct_student_fee_history (H := iso_dates)
                 Sample.two_tuition_receipts "10384" "E-1"
  = [ (CHARGE_CREATED, 90000, 90000);
      (PAYMENT_RECEIVED, -45000, 45000);
      (PAYMENT_RECEIVED, -45000, 0) ].
Proof. vm_compute. reflexivity. Qed.

(** The second receipt repeats the number 17 and gets a synthetic one. *)
Example two_tuition_receipts_numbers :
  (fun st => rr_receipt_number <$> transformed_receipts st) <$>
    (match transform_all_receipts (H := iso_dates) Sample.two_tuition_receipts
             state_init with
     | Ok st => Some st
     | Raise _ => None
     end)
  = Some ["17"; "MIG-000001"].
Proof. vm_compute. reflexivity. Qed.

(** ** The [%06d] format is injective *)

Lemma read_nat_zeros (k : nat) (s : string) (n : nat) :
  Text.read_nat s = Some n -> Text.read_nat (Text.zeros k +:+ s) = Some n.
Proof.
  intros Hs. induction k as [|k IH]; [exact Hs|].
  change (Text.zeros (S k) +:+ s) with (String "0" (Text.zeros k +:+ s)).
  unfold Text.read_nat in *. simpl.
  destruct (NilEmpty.uint_of_string (Text.zeros k +:+ s)) as [d|]; [|discriminate].
  simpl in *. exact IH.
Qed.

Lemma format_06d_read (n : nat) : Text.read_nat (Text.format_06d n) = Some n.
Proof.
  unfold Text.format_06d, Text.zfill6. apply read_nat_zeros.
  unfold Text.read_nat. rewrite NilEmpty.usu. simpl.
  by rewrite DecimalNat.Unsigned.of_to.
Qed.

Lemma mig_inj (a b : nat) : mig a = mig b -> a = b.
Proof.
  unfold mig. intros Heq. apply (inj (String.app "MIG-")) in Heq.
  pose proof (format_06d_read a) as Ha. rewrite Heq, format_06d_read in Ha.
  by inversion Ha.
Qed.

Lemma mig_not_empty (k : nat) : mig k ≠ "".
Proof. discriminate. Qed.

Lemma mig_not_zero (k : nat) : mig k ≠ "0".
Proof. discriminate. Qed.

(** ** The search for a free synthetic number *)

Lemma mig_loop_spec (fuel : nat) (used : gset string) (c : nat) :
  (∃ k, mig_loop fuel used c = Ok (mig k, S k)
        ∧ (c <= k < c + fuel)%nat ∧ (mig k ∉ used)
        ∧ (∀ j, (c <= j < k)%nat -> mig j ∈ used))
  ∨ (mig_loop fuel used c = Raise FuelExhausted
     ∧ ∀ j, (c <= j < c + fuel)%nat -> mig j ∈ used).
Proof.
  revert c. induction fuel as [|fuel IH]; intros c; simpl.
  - right. split; [done|]. intros j Hj. lia.
  - destruct (decide (mig c ∈ used)) as [Hin|Hout].
    + destruct (IH (S c)) as [(k & Hk & Hrange & Hfree & Hbelow)|[Hraise Hall]].
      * left. exists k. repeat split; [done|lia|lia|done|].
        intros j Hj. destruct (decide (j = c)) as [->|Hne]; [done|].
        apply Hbelow. lia.
      * right. split; [done|]. intros j Hj.
        destruct (decide (j = c)) as [->|Hne]; [done|]. apply Hall. lia.
    + left. exists c. repeat split; [lia|lia|done|]. intros j Hj. lia.
Qed.

Lemma mig_seq_size (c fuel : nat) (used : gset string) :
  (∀ j, (c <= j < c + fuel)%nat -> mig j ∈ used) -> (fuel <= size used)%nat.
Proof.
  intros Hall.
  assert (Hnodup : NoDup (mig <$> seq c fuel)).
  { apply NoDup_fmap_2; [|apply NoDup_seq]. intros a b. apply mig_inj. }
  assert (Hlen : length (mig <$> seq c fuel) = fuel)
    by (by rewrite length_fmap, length_seq).
  rewrite <- Hlen, <- (size_list_to_set (C := gset string)) by done.
  apply subseteq_size. intros x Hx.
  apply elem_of_list_to_set, list_elem_of_fmap in Hx as (j & -> & Hj).
  apply elem_of_seq in Hj. apply Hall. lia.
Qed.

(** The loop returns: the fuel the model gives it is always enough. *)
Lemma mig_loop_returns (used : gset string) (c : nat) :
  ∃ k, mig_loop (S (size used)) used c = Ok (mig k, S k)
       ∧ (c <= k)%nat ∧ (mig k ∉ used)
       ∧ ∀ j, (c <= j < k)%nat -> mig j ∈ used.
Proof.
  destruct (mig_loop_spec (S (size used)) used c)
    as [(k & Hk & Hrange & Hfree & Hbelow)|[_ Hall]].
  - exists k. repeat split; [done|lia|done|done].
  - apply mig_seq_size in Hall. lia.
Qed.

(** ** [generate_unique_receipt_number] *)

Lemma keeps_original_Some (used : gset string) (no : option string) (x : string) :
  keeps_original used no = Some x <->
  ∃ s, no = Some s ∧ x = Text.strip s ∧ x ≠ "" ∧ x ≠ "0" ∧ x ∉ used.
Proof.
  unfold keeps_original. destruct no as [s|].
  - case_decide as Hd.
    + destruct Hd as (Hne & Hnz & Hfree). split.
      * intros [= <-]. exists s. done.
      * intros (s' & [= <-] & -> & _). done.
    + split; [done|]. intros (s' & [= <-] & -> & ? & ? & ?).
      exfalso. apply Hd. done.
  - split; [done|]. intros (s' & ? & _). done.
Qed.

Lemma generate_unique_receipt_number_spec (n : numbering) (no : option string) :
  ∃ x n',
    generate_unique_receipt_number n no = Ok (x, n')
    ∧ (x ∉ used_receipt_numbers n)
    ∧ used_receipt_numbers n' = {[x]} ∪ used_receipt_numbers n
    ∧ ((keeps_original (used_receipt_numbers n) no = Some x
        ∧ receipt_counter n' = receipt_counter n)
       ∨ (keeps_original (used_receipt_numbers n) no = None
          ∧ ∃ k, x = mig k ∧ (receipt_counter n <= k)%nat
                 ∧ receipt_counter n' = S k
                 ∧ ∀ j, (receipt_counter n <= j < k)%nat ->
                        mig j ∈ used_receipt_numbers n)).
Proof.
  unfold generate_unique_receipt_number.
  destruct (keeps_original (used_receipt_numbers n) no) as [x|] eqn:Hkeep.
  - exists x. eexists. split; [done|]. simpl.
    apply keeps_original_Some in Hkeep as (s & _ & _ & _ & _ & Hfree).
    repeat split; [done|]. left. done.
  - destruct (mig_loop_returns (used_receipt_numbers n) (receipt_counter n))
      as (k & Hk & Hle & Hfree & Hbelow).
    rewrite Hk. simpl. exists (mig k). eexists. split; [done|]. simpl.
    repeat split; [done|]. right. split; [done|]. exists k. done.
Qed.

(** ** The second loop: what one receipt writes *)

Lemma component_rows_ok_weaken (r : legacy_receipt) (E : string)
    (rid lo hi lo' hi' : uid) (f : field) (p : ledger_event * allocation_row) :
  (lo' <= lo)%nat -> (hi <= hi')%nat ->
  component_rows_ok r E rid lo hi f p -> component_rows_ok r E rid lo' hi' f p.
Proof.
  unfold component_rows_ok. intros Hlo Hhi H.
  destruct H as (?&?&?&?&?&?&?&?&?&?&?&?&?&?&?&?).
  repeat split; try done; lia.
Qed.

Lemma emit_component_step (r : legacy_receipt) (E : string) (rid : uid)
    (rb : Z) (st : state) (f : field) :
  rb <= 0 ->
  ((0 <? amount_of r f) = false ∧ emit_component r E rid (rb, st) f = (rb, st))
  ∨ ((0 <? amount_of r f) = true
     ∧ ∃ (e : ledger_event) (a : allocation_row) (st1 : state),
         emit_component r E rid (rb, st) f = (rb - amount_of r f, st1)
         ∧ rb - amount_of r f <= 0
         ∧ numbers st1 = numbers st
         ∧ transformed_receipts st1 = transformed_receipts st
         ∧ transformed_balance_records st1 = transformed_balance_records st
         ∧ transformed_events st1 = transformed_events st ++ [e]
         ∧ transformed_allocations st1 = transformed_allocations st ++ [a]
         ∧ uuid_supply st1 = S (S (uuid_supply st))
         ∧ component_rows_ok r E rid (uuid_supply st) (S (S (uuid_supply st)))
                             f (e, a)).
Proof.
  intros Hrb. unfold emit_component.
  destruct (0 <? amount_of r f) eqn:Hpos; [right|left; done].
  apply Z.ltb_lt in Hpos. split; [done|]. cbn [uuid4 fst snd].
  do 3 eexists. split; [reflexivity|]. unfold component_rows_ok.
  repeat split; cbn; try done; lia.
Qed.

Lemma emit_components_spec (r : legacy_receipt) (E : string) (rid : uid)
    (fs : list field) (rb : Z) (st : state) :
  rb <= 0 ->
  ∃ pairs : list (ledger_event * allocation_row),
    let st' := snd (fold_left (emit_component r E rid) fs (rb, st)) in
    numbers st' = numbers st
    ∧ transformed_receipts st' = transformed_receipts st
    ∧ transformed_balance_records st' = transformed_balance_records st
    ∧ transformed_events st' = transformed_events st ++ pairs.*1
    ∧ transformed_allocations st' = transformed_allocations st ++ pairs.*2
    ∧ (uuid_supply st <= uuid_supply st')%nat
    ∧ Forall2 (component_rows_ok r E rid (uuid_supply st) (uuid_supply st'))
              (List.filter (fun f => 0 <? amount_of r f) fs) pairs.
Proof.
  revert rb st. induction fs as [|f fs IH]; intros rb st Hrb.
  - exists []. simpl. rewrite !app_nil_r. repeat split; try done; constructor.
  - cbn [fold_left List.filter].
    destruct (emit_component_step r E rid rb st f Hrb)
      as [[Hpos ->]|(Hpos & e & a & st1 & -> & Hrb1 & Hn1 & Hr1 & Hb1 & He1 & Ha1 & Hs1 & Hok1)];
      rewrite Hpos.
    + apply IH. done.
    + destruct (IH (rb - amount_of r f) st1 Hrb1)
        as (pairs & Hn & Hr & Hb & He & Ha & Hs & Hall).
      cbv zeta in *. exists ((e, a) :: pairs).
      rewrite Hn, Hr, Hb, He, Ha, Hn1, Hr1, Hb1, He1, Ha1.
      rewrite <- !app_assoc. cbn.
      repeat split; try done; [lia|].
      constructor.
      * eapply component_rows_ok_weaken; [| |exact Hok1]; lia.
      * eapply Forall2_impl; [exact Hall|]. intros f' p' Hok.
        eapply component_rows_ok_weaken; [| |exact Hok]; lia.
Qed.

Lemma emit_balance_records_frame (T : tables) (r : legacy_receipt) (E : string)
    (rid : uid) (fs : list field) (st : state) :
  let st' := fold_left (emit_balance_record T r E rid) fs st in
  numbers st' = numbers st
  ∧ transformed_receipts st' = transformed_receipts st
  ∧ transformed_events st' = transformed_events st
  ∧ transformed_allocations st' = transformed_allocations st
  ∧ (uuid_supply st <= uuid_supply st')%nat.
Proof.
  revert st. induction fs as [|f fs IH]; intros st; simpl; [done|].
  destruct (IH (emit_balance_record T r E rid st f)) as (Hn & Hr & He & Ha & Hs).
  rewrite Hn, Hr, He, Ha. unfold emit_balance_record in *.
  destruct (_ || _); simpl in *; repeat split; try done; lia.
Qed.

Lemma process_receipt_unresolved (T : tables) (st : state) (r : legacy_receipt) :
  resolved T r = None -> process_receipt T st r = Ok st.
Proof. intros Hres. unfold process_receipt. by rewrite Hres. Qed.

Lemma process_receipt_resolved (T : tables) (st : state) (r : legacy_receipt)
    (E : string) :
  resolved T r = Some E ->
  ∃ (number : string) (n1 : numbering)
    (pairs : list (ledger_event * allocation_row)) (st1 : state),
    generate_unique_receipt_number (numbers st) (lr_receipt_no r) = Ok (number, n1)
    ∧ process_receipt T st r = Ok st1
    ∧ numbers st1 = n1
    ∧ transformed_receipts st1
      = transformed_receipts st ++ [receipt_record (uuid_supply st) number r E]
    ∧ transformed_events st1 = transformed_events st ++ pairs.*1
    ∧ transformed_allocations st1 = transformed_allocations st ++ pairs.*2
    ∧ (uuid_supply st < uuid_supply st1)%nat
    ∧ Forall2 (component_rows_ok r E (uuid_supply st) (S (uuid_supply st))
                                 (uuid_supply st1))
              (positive_fields r) pairs.
Proof.
  intros Hres. unfold process_receipt. rewrite Hres. cbn [uuid4 numbers].
  destruct (generate_unique_receipt_number_spec (numbers st) (lr_receipt_no r))
    as (number & n1 & Hgen & _).
  rewrite Hgen. cbn [mbind result_bind].
  match goal with
  | |- context [fold_left (emit_component r E ?rid) fields (0, ?sta)] =>
      destruct (emit_components_spec r E rid fields 0 sta ltac:(lia))
        as (pairs & Hn & Hr & _ & He & Ha & Hs & Hall);
      set (stb := snd (fold_left (emit_component r E rid) fields (0, sta))) in *
  end.
  cbv zeta in Hn, Hr, He, Ha, Hs, Hall.
  match goal with
  | |- context [fold_left (emit_balance_record T r E ?rid) fields stb] =>
      destruct (emit_balance_records_frame T r E rid fields stb)
        as (Hn' & Hr' & He' & Ha' & Hs')
  end.
  exists number, n1, pairs. eexists. split; [done|]. split; [reflexivity|].
  rewrite Hn', Hr', He', Ha', Hn, Hr, He, Ha.
  cbn [uuid_supply append_receipt set_numbers] in Hs, Hall.
  cbn [numbers transformed_receipts transformed_events transformed_allocations
       append_receipt set_numbers].
  repeat split; try done; [lia|].
  eapply Forall2_impl; [exact Hall|]. intros f p Hok.
  eapply component_rows_ok_weaken; [| |exact Hok]; lia.
Qed.

Lemma receipts_pass_spec (T : tables) (rs : list legacy_receipt) (st : state) :
  ∃ (st' : state) (bs : list batch),
    receipts_pass T rs st = Ok st'
    ∧ transformed_receipts st' = transformed_receipts st ++ bs.*1
    ∧ transformed_events st'
      = transformed_events st ++ flat_map (fun b : batch => (snd b).*1) bs
    ∧ transformed_allocations st'
      = transformed_allocations st ++ flat_map (fun b : batch => (snd b).*2) bs
    ∧ (uuid_supply st <= uuid_supply st')%nat
    ∧ batches_ok T (numbers st) (uuid_supply st) (resolved_of T rs) bs
                 (numbers st') (uuid_supply st').
Proof.
  revert st. induction rs as [|r rs IH]; intros st.
  - exists st, []. simpl. rewrite !app_nil_r. repeat split; try done. constructor.
  - cbn [receipts_pass resolved_of List.filter]. unfold is_resolved at 1.
    destruct (resolved T r) as [E|] eqn:Hres.
    + destruct (process_receipt_resolved T st r E Hres)
        as (number & n1 & pairs & st1 & Hgen & Hproc & Hn1 & Hr1 & He1 & Ha1 & Hs1 & Hall1).
      destruct (IH st1) as (st' & bs & Hpass & Hr & He & Ha & Hs & Hbs).
      rewrite Hproc. cbn [mbind result_bind].
      exists st', ((receipt_record (uuid_supply st) number r E, pairs) :: bs).
      rewrite Hpass, Hr, He, Ha, Hr1, He1, Ha1, <- !app_assoc.
      rewrite bool_decide_eq_true_2 by eauto.
      repeat split; try done; [lia|].
      econstructor; try eassumption. by rewrite <- Hn1.
    + rewrite (process_receipt_unresolved T st r Hres). cbn [mbind result_bind].
      rewrite bool_decide_eq_false_2 by (intros [? ?]; done).
      apply IH.
Qed.

(** ** Dictionaries in insertion order *)

Lemma dict_append_keys {V : Type} (k : string) (x : V) (d : list (string * list V)) :
  (dict_append k x d).*1 = if decide (k ∈ d.*1) then d.*1 else d.*1 ++ [k].
Proof.
  induction d as [|[k' xs] d IH]; [done|].
  cbn [dict_append]. destruct (decide (k' = k)) as [->|Hne];
    rewrite !fmap_cons; cbn [fst].
  - rewrite decide_True by left. done.
  - rewrite IH. destruct (decide (k ∈ d.*1)) as [Hin|Hout].
    + rewrite decide_True by (by right). done.
    + rewrite decide_False; [done|].
      intros [?|?]%elem_of_cons; [congruence|done].
Qed.

Lemma dict_append_NoDup {V : Type} (k : string) (x : V) (d : list (string * list V)) :
  NoDup d.*1 -> NoDup (dict_append k x d).*1.
Proof.
  intros Hd. rewrite dict_append_keys. case_decide; [done|].
  apply NoDup_app. split; [done|]. split; [|apply NoDup_singleton].
  intros y Hy ->%list_elem_of_singleton. done.
Qed.

Lemma dict_get_append {V : Type} (k k' : string) (x : V) (d : list (string * list V)) :
  dict_get k' (dict_append k x d)
  = if decide (k = k') then Some (default [] (dict_get k d) ++ [x])
    else dict_get k' d.
Proof.
  induction d as [|[k0 xs] d IH]; simpl.
  - destruct (decide (k = k')); done.
  - destruct (decide (k0 = k)) as [->|Hne]; simpl.
    + destruct (decide (k = k')); done.
    + destruct (decide (k0 = k')) as [->|Hne'].
      * rewrite decide_False by congruence. done.
      * exact IH.
Qed.

Lemma dict_get_elem_of {V : Type} (k : string) (v : V) (d : list (string * V)) :
  dict_get k d = Some v -> (k, v) ∈ d.
Proof.
  induction d as [|[k' v'] d IH]; simpl; [done|].
  destruct (decide (k' = k)) as [->|Hne].
  - intros [= ->]. left.
  - intros Hget. right. auto.
Qed.

Lemma dict_get_None {V : Type} (k : string) (d : list (string * V)) :
  k ∉ d.*1 -> dict_get k d = None.
Proof.
  induction d as [|[k' v'] d IH]; simpl; [done|].
  intros Hk. destruct (decide (k' = k)) as [->|Hne].
  - exfalso. apply Hk. left.
  - apply IH. intros Hin. apply Hk. by right.
Qed.

(** ** Grouping the resolved receipts by enrollment *)

Lemma group_fold_NoDup (T : tables) (l : list legacy_receipt)
    (d : list (string * list legacy_receipt)) :
  NoDup d.*1 -> NoDup (fold_left (group_step T) l d).*1.
Proof.
  revert d. induction l as [|r l IH]; intros d Hd; [done|].
  simpl. apply IH. unfold group_step. destruct (resolved T r); [|done].
  by apply dict_append_NoDup.
Qed.

Lemma group_fold_get (T : tables) (E : string) (l : list legacy_receipt)
    (d : list (string * list legacy_receipt)) :
  dict_get E (fold_left (group_step T) l d)
  = match dict_get E d, List.filter (of_enrollment T E) l with
    | None, [] => None
    | o, add => Some (default [] o ++ add)
    end.
Proof.
  revert d. induction l as [|r l IH]; intros d.
  - simpl. destruct (dict_get E d); [by rewrite app_nil_r|done].
  - cbn [fold_left List.filter]. rewrite IH.
    unfold group_step.
    destruct (resolved T r) as [E'|] eqn:Hres.
    + rewrite dict_get_append. destruct (decide (E' = E)) as [->|Hne].
      * assert (of_enrollment T E r = true) as ->
          by (unfold of_enrollment; rewrite Hres; by apply bool_decide_eq_true_2).
        destruct (dict_get E d) as [xs|]; simpl;
          destruct (List.filter (of_enrollment T E) l);
          by rewrite <- ?app_assoc.
      * assert (of_enrollment T E r = false) as ->
          by (unfold of_enrollment; rewrite Hres;
              apply bool_decide_eq_false_2; congruence).
        done.
    + assert (of_enrollment T E r = false) as ->
        by (unfold of_enrollment; rewrite Hres; by apply bool_decide_eq_false_2).
      done.
Qed.

Lemma group_receipts_NoDup (T : tables) : NoDup (group_receipts T).*1.
Proof. apply group_fold_NoDup. constructor. Qed.

Lemma group_receipts_get (T : tables) (E : string) :
  dict_get E (group_receipts T)
  = match List.filter (of_enrollment T E) (legacy_receipts T) with
    | [] => None
    | rs => Some rs
    end.
Proof.
  unfold group_receipts. rewrite group_fold_get. simpl.
  by destruct (List.filter _ _).
Qed.

(** No group is empty: [receipts[0]] in the first loop is defined. *)
Lemma group_receipts_nonempty (T : tables) (E : string)
    (rs : list legacy_receipt) :
  dict_get E (group_receipts T) = Some rs -> rs ≠ [].
Proof.
  rewrite group_receipts_get. destruct (List.filter _ _); [done|].
  by intros [= <-].
Qed.

(** ** The first loop: what it writes *)

Lemma event_of_fee_weaken (E : string) (lo hi lo' hi' : uid) (ev : fee_event)
    (e : ledger_event) :
  (lo' <= lo)%nat -> (hi <= hi')%nat ->
  event_of_fee E lo hi ev e -> event_of_fee E lo' hi' ev e.
Proof.
  unfold event_of_fee. intros Hlo Hhi (?&?&?&?&?&?&?&?&Hlink).
  repeat split; try done; try lia.
  destruct (fe_is_initial_charge ev); [done|].
  destruct Hlink as (u & ? & ?). exists u. split; [done|lia].
Qed.

Lemma emit_history_event_step (E : string) (st : state) (ev : fee_event) :
  ∃ e : ledger_event,
    let st1 := emit_history_event E st ev in
    transformed_events st1 = transformed_events st ++ [e]
    ∧ numbers st1 = numbers st
    ∧ transformed_receipts st1 = transformed_receipts st
    ∧ transformed_allocations st1 = transformed_allocations st
    ∧ transformed_balance_records st1 = transformed_balance_records st
    ∧ (uuid_supply st < uuid_supply st1)%nat
    ∧ event_of_fee E (uuid_supply st) (uuid_supply st1) ev e.
Proof.
  unfold emit_history_event, event_of_fee. cbn [uuid4].
  destruct (fe_is_initial_charge ev) eqn:Hinit; cbn [uuid4];
    eexists; cbn; rewrite ?Hinit; repeat split; cbn; try done; try lia;
    eexists; (split; [reflexivity|lia]).
Qed.

Lemma emit_history_events_spec (E : string) (evs : list fee_event) (st : state) :
  ∃ rows : list ledger_event,
    let st' := fold_left (emit_history_event E) evs st in
    transformed_events st' = transformed_events st ++ rows
    ∧ numbers st' = numbers st
    ∧ transformed_receipts st' = transformed_receipts st
    ∧ transformed_allocations st' = transformed_allocations st
    ∧ transformed_balance_records st' = transformed_balance_records st
    ∧ (uuid_supply st <= uuid_supply st')%nat
    ∧ Forall2 (event_of_fee E (uuid_supply st) (uuid_supply st')) evs rows.
Proof.
  revert st. induction evs as [|ev evs IH]; intros st.
  - exists []. simpl. rewrite app_nil_r. repeat split; try done; constructor.
  - cbn [fold_left].
    destruct (emit_history_event_step E st ev)
      as (e & He1 & Hn1 & Hr1 & Ha1 & Hb1 & Hs1 & Hok1).
    destruct (IH (emit_history_event E st ev))
      as (rows & He & Hn & Hr & Ha & Hb & Hs & Hall).
    cbv zeta in *. exists (e :: rows).
    rewrite He, Hn, Hr, Ha, Hb, He1, Hn1, Hr1, Ha1, Hb1, <- app_assoc.
    repeat split; try done; [lia|].
    constructor.
    + eapply event_of_fee_weaken; [| |exact Hok1]; lia.
    + eapply Forall2_impl; [exact Hall|]. intros ev' e' Hok.
      eapply event_of_fee_weaken; [| |exact Hok]; lia.
Qed.

Section HistoryPass.
Context `{DateParser}.

Lemma history_groups_spec (T : tables)
    (groups : list (string * list legacy_receipt))
    (processed : gset string) (st : state) :
  NoDup groups.*1 ->
  (∀ k, k ∈ groups.*1 -> k ∉ processed) ->
  ∃ rows : list ledger_event,
    let st' := snd (fold_left (history_group T) groups (processed, st)) in
    transformed_events st' = transformed_events st ++ rows
    ∧ numbers st' = numbers st
    ∧ transformed_receipts st' = transformed_receipts st
    ∧ transformed_allocations st' = transformed_allocations st
    ∧ transformed_balance_records st' = transformed_balance_records st
    ∧ (uuid_supply st <= uuid_supply st')%nat
    ∧ Forall2 (fun p e => event_of_fee (fst p) (uuid_supply st)
                                       (uuid_supply st') (snd p) e)
              (flat_map (enrollment_history T) groups) rows.
Proof.
  revert processed st. induction groups as [|[E rs] groups IH];
    intros processed st Hnodup Hfresh.
  - exists []. simpl. rewrite app_nil_r. repeat split; try done; constructor.
  - cbn [fold_left flat_map]. rewrite fmap_cons in Hnodup, Hfresh.
    cbn [fst] in Hnodup, Hfresh. apply NoDup_cons in Hnodup as [HE Hnodup].
    assert (Hstep : history_group T (processed, st) (E, rs)
              = ({[E]} ∪ processed,
                 match rs with
                 | [] => st
                 | first :: _ =>
                     fold_left (emit_history_event E)
                       (reconstruct_student_fee_history T (lr_student_id first) E)
                       st
                 end)).
    { unfold history_group. rewrite decide_False by (apply Hfresh; left).
      by destruct rs. }
    rewrite Hstep. clear Hstep.
    assert (Hfresh' : ∀ k, k ∈ groups.*1 -> k ∉ {[E]} ∪ processed).
    { intros k Hk [->%elem_of_singleton|Hin]%elem_of_union; [done|].
      eapply Hfresh; [right; exact Hk|done]. }
    destruct rs as [|first rest].
    + destruct (IH ({[E]} ∪ processed) st Hnodup Hfresh') as (rows & Hrows).
      exists rows. exact Hrows.
    + unfold enrollment_history at 1. cbn [fst snd].
      set (evs := reconstruct_student_fee_history T (lr_student_id first) E).
      destruct (emit_history_events_spec E evs st)
        as (rows1 & He1 & Hn1 & Hr1 & Ha1 & Hb1 & Hs1 & Hall1).
      destruct (IH ({[E]} ∪ processed)
                   (fold_left (emit_history_event E) evs st) Hnodup Hfresh')
        as (rows & He & Hn & Hr & Ha & Hb & Hs & Hall).
      cbv zeta in *. exists (rows1 ++ rows).
      rewrite He, Hn, Hr, Ha, Hb, He1, Hn1, Hr1, Ha1, Hb1, <- app_assoc.
      repeat split; try done; [lia|].
      apply Forall2_app.
      * apply Forall2_fmap_l. eapply Forall2_impl; [exact Hall1|].
        intros ev e Hok. cbn [fst snd].
        eapply event_of_fee_weaken; [| |exact Hok]; lia.
      * eapply Forall2_impl; [exact Hall|]. intros p e Hok.
        eapply event_of_fee_weaken; [| |exact Hok]; lia.
Qed.

Lemma history_pass_spec (T : tables) (st : state) :
  ∃ rows : list ledger_event,
    let st' := history_pass T st in
    transformed_events st' = transformed_events st ++ rows
    ∧ numbers st' = numbers st
    ∧ transformed_receipts st' = transformed_receipts st
    ∧ transformed_allocations st' = transformed_allocations st
    ∧ transformed_balance_records st' = transformed_balance_records st
    ∧ (uuid_supply st <= uuid_supply st')%nat
    ∧ Forall2 (fun p e => event_of_fee (fst p) (uuid_supply st)
                                       (uuid_supply st') (snd p) e)
              (flat_map (enrollment_history T) (group_receipts T)) rows.
Proof.
  unfold history_pass. apply history_groups_spec.
  - apply group_receipts_NoDup.
  - intros k _. apply not_elem_of_empty.
Qed.
End HistoryPass.

(** ** The whole of [transform_all_receipts] *)

Section Run.
Context `{DateParser}.

(** The run returns when there is a receipt to transform, and its output
    is the history rows followed by the batches of the second loop. *)
Lemma transform_all_receipts_spec (T : tables) :
  (0 < length (legacy_receipts T))%nat ->
  let s0 := uuid_supply (history_pass T state_init) in
  ∃ (st : state) (hist : list ledger_event) (bs : list batch),
    transform_all_receipts T state_init = Ok st
    ∧ transformed_events (history_pass T state_init) = hist
    ∧ transformed_events st = hist ++ flat_map (fun b : batch => (snd b).*1) bs
    ∧ transformed_receipts st = bs.*1
    ∧ transformed_allocations st = flat_map (fun b : batch => (snd b).*2) bs
    ∧ Forall2 (fun p e => event_of_fee (fst p) O s0 (snd p) e)
              (flat_map (enrollment_history T) (group_receipts T)) hist
    ∧ batches_ok T numbering_init s0 (resolved_receipts T) bs
                 (numbers st) (uuid_supply st).
Proof.
  intros Hlen s0. unfold transform_all_receipts.
  destruct (history_pass_spec T state_init)
    as (hist & He0 & Hn0 & Hr0 & Ha0 & _ & _ & Hhist).
  destruct (receipts_pass_spec T (legacy_receipts T) (history_pass T state_init))
    as (st & bs & Hpass & Hr & He & Ha & _ & Hbs).
  cbv zeta in *. rewrite Hpass. cbn [mbind result_bind].
  destruct (legacy_receipts T) as [|r0 rest] eqn:Hrs; [simpl in Hlen; lia|].
  exists st, hist, bs.
  rewrite He, Hr, Ha, He0, Hr0, Ha0. rewrite Hn0 in Hbs.
  unfold resolved_receipts. rewrite Hrs. done.
Qed.
End Run.

(** ** Consequences of the trace of the second loop *)


Lemma batches_ok_rows (T : tables) (n n2 : numbering) (s s2 : uid)
    (rs : list legacy_receipt) (bs : list batch) :
  batches_ok T n s rs bs n2 s2 ->
  (s <= s2)%nat
  ∧ Forall2 (fun r b => receipt_row_ok T r (fst b)
                        ∧ (s <= rr_id (fst b) < s2)%nat) rs bs.
Proof.
  induction 1 as [|n n1 n2 s s1 s2 r rs bs E number pairs Hres Hgen Hs Hpairs Hbs [IHs IH]].
  - split; [lia|constructor].
  - split; [lia|]. constructor.
    + cbn [fst]. split; [|cbn; lia].
      unfold receipt_row_ok, receipt_record, calculate_total_amount. cbn.
      repeat split; try done; try lia; by destruct (lr_is_cancelled r).
    + eapply Forall2_impl; [exact IH|]. intros r' b' [Hok Hid]. split; [done|lia].
Qed.




(** ** C6: every resolved receipt appears exactly once *)



(** ** C5: receipt numbers *)



(** ** C7: allocations *)

Lemma fc_id_inj (f f' : field) :
  fc_id (fee_component_mappings f) = fc_id (fee_component_mappings f') -> f = f'.
Proof. destruct f, f'; simpl; intros Heq; try reflexivity; discriminate. Qed.


Lemma elem_of_List_filter {A : Type} (p : A -> bool) (l : list A) (x : A) :
  x ∈ List.filter p l <-> x ∈ l ∧ p x = true.
Proof. by rewrite !list_elem_of_In, List.filter_In. Qed.



Lemma elem_of_positive_fields (r : legacy_receipt) (f : field) :
  f ∈ positive_fields r <-> (0 <? amount_of r f) = true.
Proof.
  unfold positive_fields. rewrite elem_of_List_filter.
  split; [by intros [_ ?]|]. intros Hpos. split; [|done].
  destruct f; unfold fields; set_solver.
Qed.

Lemma filter_none {A : Type} (p : A -> bool) (l : list A) :
  (∀ x, x ∈ l -> p x = false) -> List.filter p l = [].
Proof.
  induction l as [|x l IH]; intros Hall; [done|]. simpl.
  rewrite (Hall x) by left. apply IH. intros y Hy. apply Hall. by right.
Qed.






(** ** The reconstruction of one enrollment's history *)

Lemma insert_by_perm {A : Type} (key : A -> Z) (x : A) (l : list A) :
  insert_by key x l ≡ₚ x :: l.
Proof.
  induction l as [|y l IH]; simpl; [done|].
  destruct (key x <=? key y); [done|]. rewrite IH. apply Permutation_swap.
Qed.

Lemma sort_by_perm {A : Type} (key : A -> Z) (l : list A) :
  sort_by key l ≡ₚ l.
Proof.
  induction l as [|x l IH]; simpl; [done|]. by rewrite insert_by_perm, IH.
Qed.

Lemma elem_of_sort_by {A : Type} (key : A -> Z) (l : list A) (x : A) :
  x ∈ sort_by key l <-> x ∈ l.
Proof. by rewrite sort_by_perm. Qed.

Lemma quiet_receipt (T : tables) (r : legacy_receipt) :
  has_payment r = false -> payment_events T r = [] ∧ charge_events T r = [].
Proof.
  unfold has_payment, payment_events, charge_events, fields. cbn.
  case_amounts r; cbn; done.
Qed.

Lemma paying_receipt (T : tables) (r : legacy_receipt) :
  has_payment r = true -> payment_events T r ≠ [].
Proof.
  unfold has_payment, payment_events, fields. cbn.
  case_amounts r; cbn; done.
Qed.

Lemma history_fold_nonempty (T : tables) (rs : list legacy_receipt)
    (acc : list fee_event) :
  acc ≠ [] ->
  fold_left (history_step T) rs acc = acc ++ flat_map (payment_events T) rs.
Proof.
  revert acc. induction rs as [|r rs IH]; intros acc Hacc; simpl.
  - by rewrite app_nil_r.
  - rewrite IH.
    + unfold history_step. destruct acc; [done|]. by rewrite <- app_assoc.
    + unfold history_step. destruct acc; [done|]. done.
Qed.

(** The history is the charges of the opening receipt followed by the
    payment events of all receipts. *)
Lemma history_fold_eq (T : tables) (rs : list legacy_receipt) :
  fold_left (history_step T) rs []
  = from_option (charge_events T) [] (opening_receipt rs)
    ++ flat_map (payment_events T) rs.
Proof.
  induction rs as [|r rs IH]; [done|].
  cbn [fold_left flat_map opening_receipt List.find].
  destruct (has_payment r) eqn:Hpay.
  - rewrite history_fold_nonempty.
    + unfold history_step. cbn [from_option app]. by rewrite <- app_assoc.
    + unfold history_step. cbn [app]. intros Heq.
      apply app_eq_nil in Heq as [_ Heq]. by apply (paying_receipt T r Hpay).
  - destruct (quiet_receipt T r Hpay) as [Hp Hc].
    unfold history_step at 2. cbn [app]. rewrite Hp, Hc. cbn [app]. exact IH.
Qed.

Lemma filter_component_payment_events (T : tables) (r : legacy_receipt) (f : field) :
  List.filter (is_component f) (payment_events T r)
  = if 0 <? amount_of r f
    then [payment_event r f (amount_of r f) (snapshot T r f)] else [].
Proof.
  unfold payment_events, snapshot, fields, is_component.
  destruct f; cbn; case_amounts r; cbn; try done.
Qed.



(** ** From the history to the rows of an (enrollment, component) pair *)

Lemma Forall2_List_filter {A B : Type} (R : A -> B -> Prop)
    (p : A -> bool) (q : B -> bool) (l1 : list A) (l2 : list B) :
  (∀ x y, R x y -> p x = q y) ->
  Forall2 R l1 l2 -> Forall2 R (List.filter p l1) (List.filter q l2).
Proof.
  intros Hpq. induction 1 as [|x y l1 l2 Hxy Hall IH]; [constructor|].
  simpl. rewrite <- (Hpq x y Hxy). destruct (p x); [by constructor|done].
Qed.


Lemma List_filter_fmap {A B : Type} (g : A -> B) (q : B -> bool) (l : list A) :
  List.filter q (g <$> l) = g <$> List.filter (fun x => q (g x)) l.
Proof.
  induction l as [|x l IH]; [done|]. rewrite fmap_cons. simpl.
  destruct (q (g x)); by rewrite IH.
Qed.

Lemma List_filter_all {A : Type} (p : A -> bool) (l : list A) :
  (∀ x, x ∈ l -> p x = true) -> List.filter p l = l.
Proof.
  induction l as [|x l IH]; intros Hall; [done|]. simpl.
  rewrite (Hall x) by left. f_equal. apply IH. intros y Hy. apply Hall. by right.
Qed.

Lemma List_filter_and {A : Type} (p q : A -> bool) (l : list A) :
  List.filter (fun x => p x && q x) l = List.filter q (List.filter p l).
Proof.
  induction l as [|x l IH]; [done|]. simpl.
  destruct (p x); simpl; [destruct (q x)|]; by rewrite IH.
Qed.

Section PairEvents.
Context `{DateParser}.

Lemma enrollment_history_fst (T : tables) (item : string * list legacy_receipt)
    (p : string * fee_event) :
  p ∈ enrollment_history T item -> fst p = fst item.
Proof.
  unfold enrollment_history. destruct (snd item); [by intros ?%elem_of_nil|].
  by intros (ev & -> & _)%list_elem_of_fmap.
Qed.

Lemma enrollment_history_filter (T : tables) (E : string)
    (groups : list (string * list legacy_receipt)) :
  NoDup groups.*1 ->
  List.filter (fun p : string * fee_event => bool_decide (fst p = E))
              (flat_map (enrollment_history T) groups)
  = match dict_get E groups with
    | Some rs => enrollment_history T (E, rs)
    | None => []
    end.
Proof.
  induction groups as [|[E' rs] groups IH]; intros Hnodup; [done|].
  rewrite fmap_cons in Hnodup. apply NoDup_cons in Hnodup as [HE' Hnodup].
  cbn [flat_map dict_get fst]. rewrite List.filter_app, (IH Hnodup).
  destruct (decide (E' = E)) as [->|Hne].
  - rewrite (dict_get_None E groups HE'), app_nil_r.
    apply List_filter_all. intros p Hp.
    apply enrollment_history_fst in Hp. by apply bool_decide_eq_true_2.
  - rewrite filter_none; [done|]. intros p Hp.
    apply enrollment_history_fst in Hp. apply bool_decide_eq_false_2.
    cbn [fst] in Hp. congruence.
Qed.

(** The events that the first loop writes for an (enrollment, component)
    pair are, one for one and in order, the reconstructed events of the
    component. *)
Lemma history_pass_pair_rows (T : tables) (E : string) (f : field)
    (r0 : legacy_receipt) :
  head (List.filter (of_enrollment T E) (legacy_receipts T)) = Some r0 ->
  Forall2 (event_of_fee E O (uuid_supply (history_pass T state_init)))
    (List.filter (is_component f)
       (reconstruct_student_fee_history T (lr_student_id r0) E))
    (pair_events E (fc_id (fee_component_mappings f))
       (transformed_events (history_pass T state_init))).
Proof.
  intros Hhead.
  destruct (history_pass_spec T state_init)
    as (rows & He & _ & _ & _ & _ & _ & Hall).
  cbv zeta in He, Hall. rewrite He. cbn [transformed_events state_init app].
  set (p := fun x : string * fee_event =>
              bool_decide (fst x = E) && is_component f (snd x)).
  assert (Hfilter : Forall2
            (fun x e => event_of_fee (fst x) (uuid_supply state_init)
                          (uuid_supply (history_pass T state_init)) (snd x) e)
            (List.filter p (flat_map (enrollment_history T) (group_receipts T)))
            (pair_events E (fc_id (fee_component_mappings f)) rows)).
  { apply Forall2_List_filter; [|exact Hall].
    intros [E' ev] e (_&_&Henr&Hcomp&_). cbn [fst snd] in *.
    unfold p, is_component. cbn beta. cbn [fst snd].
    rewrite Henr. rewrite Hcomp. f_equal.
    apply bool_decide_ext. split; [by intros ->|apply fc_id_inj]. }
  revert Hfilter. unfold p. rewrite List_filter_and.
  rewrite (enrollment_history_filter T E _ (group_receipts_NoDup T)).
  rewrite group_receipts_get.
  destruct (List.filter (of_enrollment T E) (legacy_receipts T)) as [|r0' rest];
    [done|]. cbn [head] in Hhead. injection Hhead as ->.
  unfold enrollment_history. cbn [fst snd]. rewrite List_filter_fmap.
  intros Hfilter. apply Forall2_fmap_l in Hfilter. exact Hfilter.
Qed.

End PairEvents.

(** ** Stable sorting by a key *)








(** ** The first loop writes each pair's events in date order *)




Section DateOrder.
Context `{DateParser}.



End DateOrder.

(** ** The events of the second loop *)



Lemma elem_of_pair_events (E cid : string) (l : list ledger_event) (e : ledger_event) :
  e ∈ pair_events E cid l
  <-> e ∈ l ∧ e_enrollment_id e = E ∧ e_fee_component_id e = cid.
Proof.
  unfold pair_events. rewrite elem_of_List_filter, andb_true_iff.
  by rewrite !bool_decide_eq_true.
Qed.

(** ** C2: the opening charge *)





(** ** C1: running balances *)







(** ** C10: each payment is recorded by both loops *)

Lemma resolved_Some (T : tables) (r : legacy_receipt) (E : string) :
  resolved T r = Some E -> find_enrollment_id T r = Some E.
Proof.
  unfold resolved. destruct (find_enrollment_id T r) as [E'|]; [|done].
  case_decide; [done|]. by intros [= ->].
Qed.

Lemma batches_ok_event (T : tables) (n n2 : numbering) (s s2 : uid)
    (rs : list legacy_receipt) (bs : list batch) :
  batches_ok T n s rs bs n2 s2 ->
  ∀ r f, r ∈ rs -> f ∈ positive_fields r ->
    ∃ (row : receipt_row) (e : ledger_event) (a : allocation_row) (hi : uid),
      row ∈ bs.*1
      ∧ rr_legacy_receipt_id row = lr_id r
      ∧ e ∈ flat_map (fun b : batch => (snd b).*1) bs
      ∧ (s <= rr_id row)%nat
      ∧ component_rows_ok r (rr_enrollment_id row) (rr_id row)
                          (S (rr_id row)) hi f (e, a).
Proof.
  induction 1 as [|n n1 n2 s s1 s2 r0 rs bs E number pairs Hres Hgen Hs Hpairs Hbs IH];
    intros r f Hr Hf.
  - by apply elem_of_nil in Hr.
  - apply elem_of_cons in Hr as [->|Hr].
    + apply list_elem_of_lookup in Hf as [i Hi].
      destruct (Forall2_lookup_l _ _ _ _ _ Hpairs Hi) as ([e a] & Hp & Hok).
      exists (receipt_record s number r0 E), e, a, s1.
      rewrite fmap_cons. cbn [fst flat_map snd receipt_record rr_id
                              rr_legacy_receipt_id rr_enrollment_id].
      split; [left|]. split; [done|]. split.
      { apply elem_of_app. left. apply list_elem_of_fmap. exists (e, a).
        split; [done|]. by eapply list_elem_of_lookup_2. }
      split; [lia|]. exact Hok.
    + destruct (IH r f Hr Hf) as (row & e & a & hi & Hrow & Hleg & He & Hid & Hok).
      exists row, e, a, hi. rewrite fmap_cons. cbn [flat_map].
      split; [by right|]. split; [done|]. split.
      { apply elem_of_app. by right. }
      split; [lia|]. exact Hok.
Qed.

(** C10 (amended).  For every resolved receipt whose legacy student
    identifier is that of the first receipt, in input order, that resolves
    to the same enrollment, and every component with a strictly positive
    amount on it, the events table holds two distinct events that reference
    the legacy receipt and the component: one written by the history pass
    (negative amount, linked to no receipt row) and one written by the
    per-receipt pass (positive amount, linked to the receipt's row). *)
Theorem payment_recorded_twice `{DateParser} (T : tables) (E : string)
    (f : field) (r0 r : legacy_receipt) :
  head (List.filter (of_enrollment T E) (legacy_receipts T)) = Some r0 ->
  r ∈ legacy_receipts T ->
  resolved T r = Some E ->
  lr_student_id r = lr_student_id r0 ->
  0 < amount_of r f ->
  ∃ st : state,
    transform_all_receipts T state_init = Ok st ∧ recorded_twice st r f.
Proof.
  intros Hhead Hr Hres Hstudent Hpos.
  assert (Hlen : (0 < length (legacy_receipts T))%nat).
  { destruct (legacy_receipts T); [done|simpl; lia]. }
  destruct (transform_all_receipts_spec T Hlen)
    as (st & hist & bs & Hrun & Hhist & He & Hrows & _ & _ & Hbs).
  exists st. split; [done|].
  set (s0 := uuid_supply (history_pass T state_init)) in *.
  (* the event of the history pass *)
  set (ev := payment_event r f (amount_of r f) (snapshot T r f)).
  assert (Hev : ev ∈ List.filter (is_component f)
                  (reconstruct_student_fee_history T (lr_student_id r0) E)).
  { apply elem_of_List_filter. split; [|by apply bool_decide_eq_true_2].
    unfold reconstruct_student_fee_history. rewrite history_fold_eq.
    apply elem_of_app. right. apply list_elem_of_In, in_flat_map.
    exists r. split.
    - apply list_elem_of_In. unfold student_receipts.
      apply elem_of_sort_by, elem_of_List_filter. split; [done|].
      apply andb_true_iff. split; apply bool_decide_eq_true_2; [done|].
      by apply resolved_Some.
    - apply list_elem_of_In.
      assert (Hin : ev ∈ List.filter (is_component f) (payment_events T r)).
      { rewrite filter_component_payment_events.
        rewrite (proj2 (Z.ltb_lt _ _) Hpos). left. }
      by apply elem_of_List_filter in Hin as [Hin _]. }
  apply list_elem_of_lookup in Hev as [i Hi].
  destruct (Forall2_lookup_l _ _ _ _ _ (history_pass_pair_rows T E f r0 Hhead) Hi)
    as (e1 & He1 & Hok1).
  apply list_elem_of_lookup_2, elem_of_pair_events in He1 as (He1 & Henr1 & Hcomp1).
  rewrite Hhist in He1.
  destruct Hok1 as (_&_&_&_&Ham1&_&Hleg1&Hid1&Hlink1).
  cbn [ev payment_event fe_amount fe_receipt fe_is_initial_charge] in Ham1, Hleg1, Hlink1.
  destruct Hlink1 as (u & Hu & Hurange). fold s0 in Hid1, Hurange.
  (* the event of the per-receipt pass *)
  assert (Hrin : r ∈ resolved_receipts T).
  { apply elem_of_List_filter. split; [done|].
    unfold is_resolved. apply bool_decide_eq_true_2. rewrite Hres. by eexists. }
  assert (Hfin : f ∈ positive_fields r).
  { apply elem_of_positive_fields. by apply Z.ltb_lt. }
  destruct (batches_ok_event _ _ _ _ _ _ _ Hbs r f Hrin Hfin)
    as (row & e2 & a & hi & Hrow & Hleg & He2 & Hrid & Hok2).
  destruct Hok2 as (_&_&_&Hcomp2&Ham2&_&Hlink2&Hleg2&Hid2&_).
  cbn [fst] in *.
  exists e1, e2, row. unfold events_of_receipt. rewrite !elem_of_List_filter, He.
  repeat split; try done.
  - apply elem_of_app. by left.
  - apply andb_true_iff. split; by apply bool_decide_eq_true_2.
  - apply elem_of_app. by right.
  - apply andb_true_iff. split; by apply bool_decide_eq_true_2.
  - lia.
  - intros row' Hrow'. rewrite Hu. intros [= ->]. rewrite Hrows in Hrow'.
    apply list_elem_of_fmap in Hrow' as (b & -> & Hb).
    apply list_elem_of_lookup in Hb as [j Hj].
    apply batches_ok_rows in Hbs as [_ Hids].
    destruct (Forall2_lookup_r _ _ _ _ _ Hids Hj) as (r' & _ & _ & Hrange). lia.
  - by rewrite Hrows.
Qed.

Lemma payment_recorded_twice_witness :
  ∃ st : state,
    transform_all_receipts (H := iso_dates) Sample.two_tuition_receipts
                           state_init = Ok st
    ∧ recorded_twice st
        (Sample.receipt "B" "10384" "AIMT(H)/10384/2023" "2024-08-12"
                        None None (Some 45000) None false (Some "17"))
        tut_fee.
Proof.
  apply (@payment_recorded_twice iso_dates Sample.two_tuition_receipts "E-1"
           tut_fee
           (Sample.receipt "A" "10384" "AIMT(H)/10384/2023" "2023-07-01"
                           None None (Some 45000) None false (Some "17"))).
  - vm_compute; reflexivity.
  - simpl. right. left.
  - vm_compute; reflexivity.
  - reflexivity.
  - vm_compute; reflexivity.
Defined.

Lemma single_record_counterexample :
  ∃ st : state,
    transform_all_receipts (H := iso_dates) Sample.shared_enrollment_code
                           state_init = Ok st
    ∧ Sample.other_student_receipt ∈ legacy_receipts Sample.shared_enrollment_code
    ∧ resolved Sample.shared_enrollment_code Sample.other_student_receipt
      = Some "E-1"
    ∧ 0 < amount_of Sample.other_student_receipt tut_fee
    ∧ length (events_of_receipt st Sample.other_student_receipt tut_fee) = 1%nat
    ∧ ¬ recorded_twice st Sample.other_student_receipt tut_fee.
Proof.
  eexists. split; [vm_compute; reflexivity|].
  split; [simpl; right; left|].
  split; [vm_compute; reflexivity|].
  split; [vm_compute; reflexivity|].
  match goal with
  | |- length ?l = _ ∧ _ =>
      assert (Hlen : length l = 1%nat) by (vm_compute; reflexivity);
      split; [exact Hlen|]; unfold recorded_twice;
      destruct l as [|x [|y l']]; try discriminate Hlen
  end.
  intros (e1 & e2 & row & H1 & H2 & Hne & _).
  apply list_elem_of_singleton in H1, H2. congruence.
Qed.

(** ** C3 and C4: the payment events of the two loops *)

(** C3, at the failing input: a resolved receipt that pays 100 of tuition
    with a legacy balance-after of 50.  The events written for the receipt
    and the component are the opening charge, the payment event of the
    history pass (amount -100, running balance 50, the snapshot) and the
    payment event of the per-receipt pass, whose amount is +100 and whose
    running balance is -100, recomputed from zero. *)
Theorem per_receipt_payment_event_evaluated :
  ∃ st : state,
    transform_all_receipts (H := iso_dates)
      (Sample.one_receipt Sample.tuition_100) state_init = Ok st
    ∧ resolved (Sample.one_receipt Sample.tuition_100) Sample.tuition_100
      = Some "E-1"
    ∧ ledger_view <$> events_of_receipt st Sample.tuition_100 tut_fee
      = [ (CHARGE_CREATED, 150, 150);
          (PAYMENT_RECEIVED, -100, 50);
          (PAYMENT_RECEIVED, 100, -100) ].
Proof.
  eexists. split; [vm_compute; reflexivity|].
  split; vm_compute; reflexivity.
Qed.

(** C4, at the failing input: the same receipt with the legacy cancellation
    flag set.  The history pass still writes a PAYMENT_RECEIVED event for it
    (with the snapshot as running balance), and the per-receipt pass writes
    the PAYMENT_CANCELLED event with a recomputed running balance of -100
    instead of the snapshot 50. *)
Theorem cancelled_payment_events_evaluated :
  ∃ st : state,
    transform_all_receipts (H := iso_dates)
      (Sample.one_receipt Sample.tuition_100_cancelled) state_init = Ok st
    ∧ resolved (Sample.one_receipt Sample.tuition_100_cancelled)
               Sample.tuition_100_cancelled = Some "E-1"
    ∧ lr_is_cancelled Sample.tuition_100_cancelled = true
    ∧ ledger_view <$> events_of_receipt st Sample.tuition_100_cancelled tut_fee
      = [ (CHARGE_CREATED, 150, 150);
          (PAYMENT_RECEIVED, -100, 50);
          (PAYMENT_CANCELLED, 100, -100) ].
Proof.
  eexists. split; [vm_compute; reflexivity|].
  repeat split; vm_compute; reflexivity.
Qed.

(** ** C8: negative amounts *)




(** ** C9: missing input files *)

Lemma missing_input_counterexample :
  student_file Sample.files_without_students = None
  ∧ (∃ out : output_files,
       run_complete_transformation (H := iso_dates) Sample.files_without_students
       = (out, None)
       ∧ is_Some (receipts_csv out) ∧ is_Some (events_csv out)
       ∧ import_script out = true)
  ∧ enrollment_file Sample.files_without_enrollments = None
  ∧ (∃ out : output_files,
       run_complete_transformation (H := iso_dates)
         Sample.files_without_enrollments = (out, None)
       ∧ import_script out = true).
Proof.
  split; [reflexivity|]. split.
  - eexists. split; [vm_compute; reflexivity|]. repeat split; by eexists.
  - split; [reflexivity|]. eexists. split; [vm_compute; reflexivity|]. done.
Qed.

(** C9 (amended).  If the legacy receipts file is missing, the run aborts
    with [FileNotFoundError] before any output file is written.  (A missing
    enrollment or student table does not abort the run: its lookup is left
    empty.) *)
Theorem missing_receipts_file_aborts `{DateParser} (files : input_files) :
  legacy_receipts_file files = None ->
  run_complete_transformation files = (no_output, Some FileNotFoundError).
Proof.
  intros Hmissing. unfold run_complete_transformation, load_legacy_data.
  rewrite Hmissing. by destruct (load_mappings files).
Qed.

Lemma missing_receipts_file_aborts_witness :
  legacy_receipts_file Sample.files_without_receipts = None
  ∧ run_complete_transformation (H := iso_dates) Sample.files_without_receipts
    = (no_output, Some FileNotFoundError).
Proof.
  split; [reflexivity|].
  apply (@missing_receipts_file_aborts iso_dates Sample.files_without_receipts).
  reflexivity.
Defined.

(* ================================================================== *)
(** * Further properties of the transformer *)
(* ================================================================== *)

(** ** Loading the mapping files *)

Lemma dict_get_set {V : Type} (k k' : string) (v : V) (d : list (string * V)) :
  dict_get k' (dict_set k v d)
  = if decide (k = k') then Some v else dict_get k' d.
Proof.
  induction d as [|[k0 v0] d IH]; simpl.
  - destruct (decide (k = k')); done.
  - destruct (decide (k0 = k)) as [->|Hne]; simpl.
    + destruct (decide (k = k')); done.
    + destruct (decide (k0 = k')) as [->|Hne'].
      * rewrite decide_False by congruence. done.
      * exact IH.
Qed.

Lemma dict_set_keys {V : Type} (k : string) (v : V) (d : list (string * V)) :
  (dict_set k v d).*1 = if decide (k ∈ d.*1) then d.*1 else d.*1 ++ [k].
Proof.
  induction d as [|[k' v'] d IH]; [done|].
  cbn [dict_set]. destruct (decide (k' = k)) as [->|Hne];
    rewrite !fmap_cons; cbn [fst].
  - rewrite decide_True by left. done.
  - rewrite IH. destruct (decide (k ∈ d.*1)) as [Hin|Hout].
    + rewrite decide_True by (by right). done.
    + rewrite decide_False; [done|].
      intros [?|?]%elem_of_cons; [congruence|done].
Qed.

Lemma List_find_app {A : Type} (p : A -> bool) (l1 l2 : list A) :
  List.find p (l1 ++ l2)
  = match List.find p l1 with
    | Some x => Some x
    | None => List.find p l2
    end.
Proof. induction l1 as [|x l1 IH]; simpl; [done|]. by destruct (p x). Qed.

Lemma enrollment_lookup_fold (code : string) (rows : list enrollment_row)
    (acc : list (string * enrollment)) :
  let step := fun lookup row =>
                dict_set (er_enrollment_code row)
                  {| enrollment_id := er_id row;
                     en_student_id := er_student_id row;
                     en_course_id := er_course_id row;
                     en_session_id := er_session_id row |} lookup in
  NoDup acc.*1 ->
  NoDup (fold_left step rows acc).*1
  ∧ dict_get code (fold_left step rows acc)
    = match List.find (fun row => bool_decide (er_enrollment_code row = code))
                      (rev rows) with
      | Some row => Some (enrollment_of_row row)
      | None => dict_get code acc
      end.
Proof.
  intros step. revert acc. induction rows as [|row rows IH]; intros acc Hacc.
  - done.
  - cbn [fold_left].
    assert (Hstep : NoDup (step acc row).*1).
    { unfold step. rewrite dict_set_keys. case_decide; [done|].
      apply NoDup_app. split; [done|]. split; [|apply NoDup_singleton].
      intros y Hy ->%list_elem_of_singleton. done. }
    destruct (IH (step acc row) Hstep) as [Hnodup Hget]. split; [done|].
    rewrite Hget. cbn [rev]. rewrite List_find_app.
    destruct (List.find _ (rev rows)); [done|]. cbn [List.find].
    unfold step at 1. rewrite dict_get_set.
    destruct (decide (er_enrollment_code row = code)) as [Heq|Hne].
    + by rewrite bool_decide_eq_true_2.
    + by rewrite bool_decide_eq_false_2.
Qed.

(** X1.  [load_mappings] keeps one entry per enrollment code, and a code that
    occurs on several rows of the enrollment file maps to the last of them. *)
Theorem load_mappings_last_row_wins (files : input_files)
    (rows : list enrollment_row) (code : string) :
  enrollment_file files = Some rows ->
  NoDup (fst (load_mappings files)).*1
  ∧ dict_get code (fst (load_mappings files))
    = enrollment_of_row <$>
        List.find (fun row => bool_decide (er_enrollment_code row = code))
                  (rev rows).
Proof.
  intros Hfile. unfold load_mappings. rewrite Hfile. cbn [fst].
  destruct (enrollment_lookup_fold code rows [] (NoDup_nil_2 (A := string))) as [Hnodup Hget].
  split; [exact Hnodup|]. rewrite Hget. by destruct (List.find _ _).
Qed.

Lemma load_mappings_last_row_wins_witness :
  enrollment_file Cases.files_with_repeated_code = Some Cases.repeated_code_rows
  ∧ NoDup (fst (load_mappings Cases.files_with_repeated_code)).*1
  ∧ dict_get "AIMT(H)/10384/2023"
             (fst (load_mappings Cases.files_with_repeated_code))
    = enrollment_of_row <$>
        List.find
          (fun row => bool_decide (er_enrollment_code row = "AIMT(H)/10384/2023"))
          (rev Cases.repeated_code_rows).
Proof.
  split; [reflexivity|].
  apply (load_mappings_last_row_wins Cases.files_with_repeated_code
           Cases.repeated_code_rows "AIMT(H)/10384/2023").
  reflexivity.
Defined.

(** ** Resolving receipts *)

Lemma enrollment_of_student_from_table (lookup : list (string * enrollment))
    (mapped : string) (E : string) :
  enrollment_of_student lookup mapped = Some E ->
  ∃ code e, (code, e) ∈ lookup ∧ enrollment_id e = E ∧ en_student_id e = mapped.
Proof.
  unfold enrollment_of_student.
  destruct (List.find _ lookup) as [[code e]|] eqn:Hfind; [|done].
  intros [= <-]. apply find_some in Hfind as [Hin Hp].
  exists code, e. apply list_elem_of_In in Hin.
  by apply bool_decide_eq_true in Hp.
Qed.

(** X2.  An enrollment identifier that [find_enrollment_id] returns is the
    identifier of an entry of the enrollment table: either the entry of the
    receipt's own enrollment code, or an entry of the student that the
    student table gives for the receipt's student id or for the digits
    taken from its enrollment code. *)
Theorem find_enrollment_id_from_table (T : tables) (r : legacy_receipt)
    (E : string) :
  find_enrollment_id T r = Some E ->
  ∃ code e,
    (code, e) ∈ enrollment_lookup T ∧ enrollment_id e = E
    ∧ (code = lr_enrol_id r
       ∨ student_lookup T !! lr_student_id r = Some (en_student_id e)
       ∨ ∃ digits, extract_student_id (lr_enrol_id r) = Some digits
                   ∧ student_lookup T !! digits = Some (en_student_id e)).
Proof.
  unfold find_enrollment_id.
  destruct (decide (lr_enrol_id r = "")) as [Hempty|Hcode].
  - destruct (student_lookup T !! lr_student_id r) as [mapped|] eqn:Hstudent; [|done].
    destruct (enrollment_of_student _ mapped) as [E'|] eqn:Hscan; [|done].
    intros [= <-].
    apply enrollment_of_student_from_table in Hscan as (code & e & Hin & Hid & Hs).
    exists code, e. rewrite Hs. auto.
  - destruct (dict_get (lr_enrol_id r) (enrollment_lookup T)) as [e|] eqn:Hget.
    + intros [= <-]. exists (lr_enrol_id r), e.
      split; [by apply dict_get_elem_of|]. auto.
    + destruct (student_lookup T !! lr_student_id r) as [mapped|] eqn:Hstudent.
      * destruct (enrollment_of_student _ mapped) as [E'|] eqn:Hscan.
        -- intros [= <-].
           apply enrollment_of_student_from_table in Hscan
             as (code & e & Hin & Hid & Hs).
           exists code, e. rewrite Hs. auto.
        -- destruct (extract_student_id (lr_enrol_id r)) as [digits|] eqn:Hx; [|done].
           destruct (student_lookup T !! digits) as [mapped'|] eqn:Hstudent'; [|done].
           intros Hscan'.
           apply enrollment_of_student_from_table in Hscan'
             as (code & e & Hin & Hid & Hs).
           exists code, e. rewrite Hs. split; [done|]. split; [done|].
           right. right. by exists digits.
      * destruct (extract_student_id (lr_enrol_id r)) as [digits|] eqn:Hx; [|done].
        destruct (student_lookup T !! digits) as [mapped'|] eqn:Hstudent'; [|done].
        intros Hscan'.
        apply enrollment_of_student_from_table in Hscan'
          as (code & e & Hin & Hid & Hs).
        exists code, e. rewrite Hs. split; [done|]. split; [done|].
        right. right. by exists digits.
Qed.

Lemma find_enrollment_id_from_table_witness :
  find_enrollment_id Sample.two_tuition_receipts Cases.unknown_code_receipt
  = Some "E-1"
  ∧ ∃ code e,
      (code, e) ∈ enrollment_lookup Sample.two_tuition_receipts
      ∧ enrollment_id e = "E-1"
      ∧ (code = lr_enrol_id Cases.unknown_code_receipt
         ∨ student_lookup Sample.two_tuition_receipts
             !! lr_student_id Cases.unknown_code_receipt
           = Some (en_student_id e)
         ∨ ∃ digits,
             extract_student_id (lr_enrol_id Cases.unknown_code_receipt)
             = Some digits
             ∧ student_lookup Sample.two_tuition_receipts !! digits
               = Some (en_student_id e)).
Proof.
  split; [vm_compute; reflexivity|].
  apply (find_enrollment_id_from_table Sample.two_tuition_receipts
           Cases.unknown_code_receipt "E-1").
  vm_compute; reflexivity.
Defined.


(** ** The balance records of the second loop *)

Lemma emit_balance_record_step (T : tables) (r : legacy_receipt) (E : string)
    (rid : uid) (st : state) (f : field) :
  (has_balance T r f = false ∧ emit_balance_record T r E rid st f = st)
  ∨ (has_balance T r f = true
     ∧ ∃ b : balance_row,
         transformed_balance_records (emit_balance_record T r E rid st f)
         = transformed_balance_records st ++ [b]
         ∧ balance_row_ok T r E rid f b).
Proof.
  unfold emit_balance_record, has_balance, snapshot.
  destruct (_ || _); [right|left; done].
  split; [done|]. eexists. cbn [uuid4 fst snd]. split; [reflexivity|].
  unfold balance_row_ok, snapshot. cbn. done.
Qed.

Lemma emit_balance_records_spec (T : tables) (r : legacy_receipt) (E : string)
    (rid : uid) (fs : list field) (st : state) :
  ∃ rows : list balance_row,
    transformed_balance_records (fold_left (emit_balance_record T r E rid) fs st)
    = transformed_balance_records st ++ rows
    ∧ Forall2 (balance_row_ok T r E rid) (List.filter (has_balance T r) fs) rows.
Proof.
  revert st. induction fs as [|f fs IH]; intros st.
  - exists []. simpl. rewrite app_nil_r. split; [done|constructor].
  - cbn [fold_left List.filter].
    destruct (IH (emit_balance_record T r E rid st f)) as (rows & Hrows & Hall).
    rewrite Hrows.
    destruct (emit_balance_record_step T r E rid st f)
      as [[Hhas ->]|(Hhas & b & Hb & Hok)]; rewrite Hhas.
    + exists rows. done.
    + exists (b :: rows). rewrite Hb, <- app_assoc. split; [done|].
      by constructor.
Qed.

Lemma process_receipt_balance (T : tables) (st : state) (r : legacy_receipt)
    (E : string) :
  resolved T r = Some E ->
  ∃ (st1 : state) (rows : list balance_row),
    process_receipt T st r = Ok st1
    ∧ transformed_balance_records st1 = transformed_balance_records st ++ rows
    ∧ Forall2 (balance_row_ok T r E (uuid_supply st)) (balance_fields T r) rows.
Proof.
  intros Hres. unfold process_receipt. rewrite Hres. cbn [uuid4 numbers].
  destruct (generate_unique_receipt_number_spec (numbers st) (lr_receipt_no r))
    as (number & n1 & Hgen & _).
  rewrite Hgen. cbn [mbind result_bind].
  match goal with
  | |- context [fold_left (emit_component r E ?rid) fields (0, ?sta)] =>
      destruct (emit_components_spec r E rid fields 0 sta ltac:(lia))
        as (pairs & _ & _ & Hb & _);
      set (stb := snd (fold_left (emit_component r E rid) fields (0, sta))) in *
  end.
  cbv zeta in Hb.
  destruct (emit_balance_records_spec T r E (uuid_supply st) fields stb)
    as (rows & Hrows & Hall).
  eexists. exists rows. split; [reflexivity|]. rewrite Hrows, Hb.
  cbn [transformed_balance_records append_receipt set_numbers]. done.
Qed.

Lemma receipts_pass_balance (T : tables) (rs : list legacy_receipt) (st : state) :
  ∃ (st' : state) (rowss : list (list balance_row)),
    receipts_pass T rs st = Ok st'
    ∧ transformed_balance_records st'
      = transformed_balance_records st ++ concat rowss
    ∧ Forall2 (balance_rows_ok T st') (resolved_of T rs) rowss.
Proof.
  revert st. induction rs as [|r rs IH]; intros st.
  - exists st, []. simpl. rewrite app_nil_r. repeat split; try done; constructor.
  - cbn [receipts_pass resolved_of List.filter]. unfold is_resolved at 1.
    destruct (resolved T r) as [E|] eqn:Hres.
    + destruct (process_receipt_balance T st r E Hres)
        as (st1 & rows & Hproc & Hb1 & Hall1).
      destruct (process_receipt_resolved T st r E Hres)
        as (number & n1 & pairs & st1' & _ & Hproc' & _ & Hr1 & _).
      rewrite Hproc in Hproc'. injection Hproc' as <-.
      destruct (IH st1) as (st' & rowss & Hpass & Hb & Hall).
      destruct (receipts_pass_spec T rs st1) as (st'' & bs & Hpass' & Hr & _).
      rewrite Hpass in Hpass'. injection Hpass' as <-.
      rewrite Hproc. cbn [mbind result_bind].
      exists st', (rows :: rowss).
      rewrite bool_decide_eq_true_2 by eauto.
      rewrite Hpass, Hb, Hb1. cbn [concat]. rewrite <- app_assoc.
      repeat split; try done. constructor; [|done].
      exists E, (receipt_record (uuid_supply st) number r E).
      split; [done|]. split.
      { rewrite Hr, Hr1. apply elem_of_app. left. apply elem_of_app. right. left. }
      split; done.
    + rewrite (process_receipt_unresolved T st r Hres). cbn [mbind result_bind].
      rewrite bool_decide_eq_false_2 by (intros [? ?]; done).
      apply IH.
Qed.



(** ** Where ledger events come from *)

Lemma charge_events_inv (T : tables) (r : legacy_receipt) (ev : fee_event) :
  ev ∈ charge_events T r ->
  ∃ f, 0 < amount_of r f ∧ 0 < snapshot T r f + amount_of r f
       ∧ ev = charge_event r f (snapshot T r f + amount_of r f).
Proof.
  unfold charge_events, snapshot. intros Hin.
  apply list_elem_of_In, in_flat_map in Hin as (f & _ & Hin).
  cbv zeta in Hin.
  destruct (0 <? amount_of r f) eqn:Hpos; [|done].
  destruct (0 <? balance_of _ f + amount_of r f) eqn:Hbefore; [|done].
  apply list_elem_of_In, list_elem_of_singleton in Hin as ->.
  apply Z.ltb_lt in Hpos, Hbefore. by exists f.
Qed.

Lemma payment_events_inv (T : tables) (r : legacy_receipt) (ev : fee_event) :
  ev ∈ payment_events T r ->
  ∃ f, 0 < amount_of r f
       ∧ ev = payment_event r f (amount_of r f) (snapshot T r f).
Proof.
  unfold payment_events, snapshot. intros Hin.
  apply list_elem_of_In, in_flat_map in Hin as (f & _ & Hin).
  cbv zeta in Hin.
  destruct (0 <? amount_of r f) eqn:Hpos; [|done].
  apply list_elem_of_In, list_elem_of_singleton in Hin as ->.
  apply Z.ltb_lt in Hpos. by exists f.
Qed.

Lemma dict_get_of_elem {V : Type} (k : string) (v : V) (d : list (string * V)) :
  NoDup d.*1 -> (k, v) ∈ d -> dict_get k d = Some v.
Proof.
  induction d as [|[k' v'] d IH]; intros Hnodup Hin; [by apply elem_of_nil in Hin|].
  rewrite fmap_cons in Hnodup. apply NoDup_cons in Hnodup as [Hk' Hnodup].
  simpl. apply elem_of_cons in Hin as [[= -> ->]|Hin].
  - by rewrite decide_True.
  - rewrite decide_False; [by apply IH|]. intros ->. apply Hk'.
    apply list_elem_of_fmap. by exists (k, v).
Qed.

Lemma group_receipts_elem (T : tables) (E : string) (rs : list legacy_receipt) :
  (E, rs) ∈ group_receipts T ->
  rs = List.filter (of_enrollment T E) (legacy_receipts T)
  ∧ ∃ first rest, rs = first :: rest ∧ first ∈ legacy_receipts T
                  ∧ resolved T first = Some E.
Proof.
  intros Hin. apply (dict_get_of_elem _ _ _ (group_receipts_NoDup T)) in Hin.
  rewrite group_receipts_get in Hin.
  destruct (List.filter (of_enrollment T E) (legacy_receipts T))
    as [|first rest] eqn:Hfilter; [done|].
  injection Hin as <-. split; [done|]. exists first, rest. split; [done|].
  assert (Hfirst : first ∈ List.filter (of_enrollment T E) (legacy_receipts T))
    by (rewrite Hfilter; left).
  apply elem_of_List_filter in Hfirst as [Hin Hof]. split; [done|].
  by apply bool_decide_eq_true in Hof.
Qed.

Lemma resolved_of_find (T : tables) (r r' : legacy_receipt) (E : string) :
  resolved T r' = Some E -> find_enrollment_id T r = Some E ->
  resolved T r = Some E.
Proof.
  unfold resolved. intros Hr' ->.
  destruct (find_enrollment_id T r') as [E'|]; [|done].
  case_decide as HE'; [done|]. injection Hr' as ->. by rewrite decide_False.
Qed.

Section Origin.
Context `{DateParser}.

Lemma reconstruct_event_origin (T : tables) (student_id E : string)
    (ev : fee_event) :
  ev ∈ reconstruct_student_fee_history T student_id E ->
  ∃ r f,
    r ∈ legacy_receipts T ∧ lr_student_id r = student_id
    ∧ find_enrollment_id T r = Some E ∧ 0 < amount_of r f
    ∧ ((0 < snapshot T r f + amount_of r f
        ∧ ev = charge_event r f (snapshot T r f + amount_of r f))
       ∨ ev = payment_event r f (amount_of r f) (snapshot T r f)).
Proof.
  unfold reconstruct_student_fee_history. rewrite history_fold_eq.
  set (rs := student_receipts T student_id E).
  assert (Hrs : ∀ r, r ∈ rs -> r ∈ legacy_receipts T ∧ lr_student_id r = student_id
                               ∧ find_enrollment_id T r = Some E).
  { intros r Hr. apply elem_of_sort_by, elem_of_List_filter in Hr as [Hin Hc].
    apply andb_true_iff in Hc as [Hs He].
    apply bool_decide_eq_true in Hs, He. done. }
  intros [Hin|Hin]%elem_of_app.
  - destruct (opening_receipt rs) as [r1|] eqn:Hopen; [|by apply elem_of_nil in Hin].
    cbn [from_option] in Hin. apply find_some in Hopen as [Hr1 _].
    apply list_elem_of_In in Hr1. destruct (Hrs r1 Hr1) as (? & ? & ?).
    apply charge_events_inv in Hin as (f & Hpos & Hbefore & ->).
    exists r1, f. repeat split; try done. by left.
  - apply list_elem_of_In, in_flat_map in Hin as (r & Hr & Hin).
    apply list_elem_of_In in Hr, Hin. destruct (Hrs r Hr) as (? & ? & ?).
    apply payment_events_inv in Hin as (f & Hpos & ->).
    exists r, f. repeat split; try done. by right.
Qed.

Lemma history_event_origin (T : tables) (e : ledger_event) :
  e ∈ transformed_events (history_pass T state_init) ->
  ∃ r f, event_from T r f e
         ∧ (e_event_type e = CHARGE_CREATED ∨ e_amount e < 0).
Proof.
  destruct (history_pass_spec T state_init) as (rows & He & _ & _ & _ & _ & _ & Hall).
  cbv zeta in He, Hall. rewrite He. cbn [transformed_events state_init app].
  intros Hin. apply list_elem_of_lookup in Hin as [i Hi].
  destruct (Forall2_lookup_r _ _ _ _ _ Hall Hi) as ([E ev] & Hev & Hok).
  apply list_elem_of_lookup_2, list_elem_of_In, in_flat_map in Hev
    as ([E' rs] & Hitem & Hev).
  apply list_elem_of_In in Hitem, Hev.
  apply group_receipts_elem in Hitem as (_ & first & rest & -> & Hfirst & Hres).
  unfold enrollment_history in Hev. cbn [fst snd] in Hev.
  apply list_elem_of_fmap in Hev as (ev' & [= -> ->] & Hev).
  apply reconstruct_event_origin in Hev
    as (r & f & Hr & _ & Hfind & Hpos & Hkind).
  destruct Hok as (Hty & Hdate & Henr & Hcomp & Ham & Hrb & Hleg & _ & Hlink).
  cbn [fst snd] in *. exists r, f.
  assert (Hhistory : e_event_type e = CHARGE_CREATED ∨ e_amount e < 0).
  { destruct Hkind as [ [_ ->] | -> ];
      cbn [charge_event payment_event fe_event_type fe_amount] in Hty, Ham;
      [by left|right; lia]. }
  split; [|exact Hhistory]. unfold event_from.
  rewrite Henr. split; [done|]. split; [by eapply resolved_of_find|].
  split; [done|].
  destruct Hkind as [ [Hbefore ->] | -> ];
    cbn [charge_event payment_event fe_receipt fe_component fe_event_type
         fe_amount fe_running_balance fe_is_initial_charge] in *.
  - repeat split; try done. left. done.
  - repeat split; try done. right. left.
    destruct Hlink as (u & Hu & _). rewrite Hu. repeat split; done.
Qed.
End Origin.

Lemma batch_event_origin (T : tables) (n n2 : numbering) (s s2 : uid)
    (rs : list legacy_receipt) (bs : list batch) :
  batches_ok T n s rs bs n2 s2 ->
  ∀ e, e ∈ flat_map (fun b : batch => (snd b).*1) bs ->
    ∃ r f E rid hi a,
      r ∈ rs ∧ resolved T r = Some E ∧ f ∈ positive_fields r
      ∧ component_rows_ok r E rid (S rid) hi f (e, a).
Proof.
  induction 1 as [|n n1 n2 s s1 s2 r rs bs E number pairs Hres Hgen Hs Hpairs Hbs IH];
    intros e He.
  - by apply elem_of_nil in He.
  - cbn [flat_map snd] in He. apply elem_of_app in He as [He|He].
    + apply list_elem_of_fmap in He as ([e' a] & -> & Hp).
      apply list_elem_of_lookup in Hp as [i Hi].
      destruct (Forall2_lookup_r _ _ _ _ _ Hpairs Hi) as (f & Hf & Hok).
      exists r, f, E, s, s1, a. split; [left|]. split; [done|].
      split; [by eapply list_elem_of_lookup_2|done].
    + destruct (IH e He) as (r' & f & E' & rid & hi & a & Hr' & ? & ? & ?).
      exists r', f, E', rid, hi, a. split; [by right|done].
Qed.

Section EventOrigin.
Context `{DateParser}.

(** Every ledger event of a run comes from a resolved receipt and a
    component with a strictly positive amount on it. *)
Lemma ledger_event_origin (T : tables) (st : state) (e : ledger_event) :
  transform_all_receipts T state_init = Ok st ->
  e ∈ transformed_events st ->
  ∃ r f, event_from T r f e.
Proof.
  intros Hrun Hin.
  assert (Hlen : (0 < length (legacy_receipts T))%nat).
  { unfold transform_all_receipts in Hrun.
    destruct (receipts_pass _ _ _); [|done]. cbn in Hrun.
    destruct (legacy_receipts T); [done|simpl; lia]. }
  destruct (transform_all_receipts_spec T Hlen)
    as (st' & hist & bs & Hrun' & Hhist & He & _ & _ & _ & Hbs).
  rewrite Hrun in Hrun'. injection Hrun' as <-.
  rewrite He in Hin. apply elem_of_app in Hin as [Hin|Hin].
  - rewrite <- Hhist in Hin.
    destruct (history_event_origin T e Hin) as (r & f & Hfrom & _).
    by exists r, f.
  - destruct (batch_event_origin _ _ _ _ _ _ _ Hbs e Hin)
      as (r & f & E & rid & hi & a & Hr & Hres & Hf & Hok).
    apply elem_of_List_filter in Hr as [Hr _].
    apply elem_of_positive_fields, Z.ltb_lt in Hf.
    destruct Hok as (Hty & Hdate & Henr & Hcomp & Ham & Hrb & Hlink & Hleg & _).
    cbn [fst] in *. exists r, f. unfold event_from. rewrite Henr.
    repeat split; try done. right. right. rewrite Hlink.
    repeat split; done.
Qed.
End EventOrigin.

(** ** The tables of a run, and their sizes *)

Section Tables.
Context `{DateParser}.

Lemma transform_all_receipts_tables (T : tables) :
  (0 < length (legacy_receipts T))%nat ->
  ∃ (st : state) (hist : list ledger_event) (bs : list batch)
    (rowss : list (list balance_row)),
    transform_all_receipts T state_init = Ok st
    ∧ transformed_events (history_pass T state_init) = hist
    ∧ transformed_events st = hist ++ flat_map (fun b : batch => (snd b).*1) bs
    ∧ transformed_receipts st = bs.*1
    ∧ transformed_allocations st = flat_map (fun b : batch => (snd b).*2) bs
    ∧ transformed_balance_records st = concat rowss
    ∧ batches_ok T numbering_init (uuid_supply (history_pass T state_init))
                 (resolved_receipts T) bs (numbers st) (uuid_supply st)
    ∧ Forall2 (balance_rows_ok T st) (resolved_receipts T) rowss.
Proof.
  intros Hlen.
  destruct (transform_all_receipts_spec T Hlen)
    as (st & hist & bs & Hrun & Hhist & He & Hr & Ha & _ & Hbs).
  destruct (history_pass_spec T state_init) as (hist' & _ & _ & _ & _ & Hb0 & _).
  destruct (receipts_pass_balance T (legacy_receipts T) (history_pass T state_init))
    as (st' & rowss & Hpass & Hb & Hall).
  cbv zeta in Hb0. pose proof Hrun as Hrun'.
  unfold transform_all_receipts in Hrun'.
  rewrite Hpass in Hrun'. cbn [mbind result_bind] in Hrun'.
  assert (st' = st) as ->.
  { destruct (legacy_receipts T); [done|]. by injection Hrun'. }
  exists st, hist, bs, rowss. rewrite Hb, Hb0. done.
Qed.

End Tables.






Section Sizes.
Context `{DateParser}.


End Sizes.


(** ** The whole run *)

Lemma run_complete_transformation_eq `{DateParser} (files : input_files)
    (receipts : list legacy_receipt) :
  legacy_receipts_file files = Some receipts ->
  run_complete_transformation files
  = match transform_all_receipts (tables_of files receipts) state_init with
    | Raise e => (no_output, Some e)
    | Ok st => (generate_import_script (save_transformed_data st no_output), None)
    end.
Proof.
  intros Hfile. unfold run_complete_transformation, load_legacy_data, tables_of.
  rewrite Hfile. by destruct (load_mappings files).
Qed.



Section WholeRun.
Context `{DateParser}.

(** X5.  A legacy receipts file without rows ends the run with
    [ZeroDivisionError] (the success rate divides by the number of legacy
    receipts) before any output file is written, whatever the other input
    files hold. *)
Theorem empty_receipts_file_raises (files : input_files) :
  legacy_receipts_file files = Some [] ->
  run_complete_transformation files = (no_output, Some ZeroDivisionError).
Proof.
  intros Hfile. by rewrite (run_complete_transformation_eq files [] Hfile).
Qed.


End WholeRun.

Lemma empty_receipts_file_raises_witness :
  legacy_receipts_file Cases.files_with_no_receipt = Some []
  ∧ run_complete_transformation (H := iso_dates) Cases.files_with_no_receipt
    = (no_output, Some ZeroDivisionError).
Proof.
  split; [reflexivity|].
  apply (@empty_receipts_file_raises iso_dates Cases.files_with_no_receipt).
  reflexivity.
Defined.



(** ** The events of the ledger *)

Section Events.
Context `{DateParser}.

(** X8.  Shape of the ledger events of a run.  No event has amount zero.  The
    events without a receipt link are the [CHARGE_CREATED] events; their
    amount is their running balance and is strictly positive.  An event
    with a negative amount is a [PAYMENT_RECEIVED] event, and a
    [PAYMENT_CANCELLED] event has a positive amount and a negative running
    balance. *)
Theorem ledger_event_shapes (T : tables) :
  (0 < length (legacy_receipts T))%nat ->
  ∃ st : state,
    transform_all_receipts T state_init = Ok st
    ∧ ∀ e, e ∈ transformed_events st ->
        e_amount e ≠ 0
        ∧ (e_event_type e = CHARGE_CREATED <-> e_receipt_id e = None)
        ∧ (e_event_type e = CHARGE_CREATED ->
           e_amount e = e_running_balance e ∧ 0 < e_amount e)
        ∧ (e_amount e < 0 -> e_event_type e = PAYMENT_RECEIVED)
        ∧ (e_event_type e = PAYMENT_CANCELLED ->
           0 < e_amount e ∧ e_running_balance e < 0).
Proof.
  intros Hlen.
  destruct (transform_all_receipts_tables T Hlen) as (st & _ & _ & _ & Hrun & _).
  exists st. split; [done|]. intros e He.
  destruct (ledger_event_origin T st e Hrun He)
    as (r & f & _ & _ & Hpos & _ & _ & _ & Hkind).
  destruct Hkind as [(Hty & Ham & Hrb & Hcharge & Hlink)
                    |[(Hty & Ham & Hrb & [u Hlink])|(Hty & Ham & Hrb & [u Hlink])]];
    rewrite Hty, Hlink.
  - repeat split; try done; lia.
  - repeat split; try done; lia.
  - destruct (lr_is_cancelled r); repeat split; try done; lia.
Qed.

(** X9.  Every ledger event of a run has a source: a legacy receipt that
    resolves to the event's enrollment and a component with a strictly
    positive amount on that receipt.  The event carries the receipt's
    identifier and date and the component's identifier; unless it is an
    opening charge its amount is, up to sign, the component's amount; and a
    [PAYMENT_CANCELLED] event comes from a cancelled receipt. *)
Theorem ledger_events_have_a_source (T : tables) :
  (0 < length (legacy_receipts T))%nat ->
  ∃ st : state,
    transform_all_receipts T state_init = Ok st
    ∧ ∀ e, e ∈ transformed_events st ->
        ∃ (r : legacy_receipt) (f : field),
          r ∈ legacy_receipts T
          ∧ resolved T r = Some (e_enrollment_id e)
          ∧ e_legacy_receipt_id e = lr_id r
          ∧ e_event_date e = lr_fee_date r
          ∧ e_fee_component_id e = fc_id (fee_component_mappings f)
          ∧ 0 < amount_of r f
          ∧ (e_event_type e ≠ CHARGE_CREATED ->
             Z.abs (e_amount e) = amount_of r f)
          ∧ (e_event_type e = PAYMENT_CANCELLED -> lr_is_cancelled r = true).
Proof.
  intros Hlen.
  destruct (transform_all_receipts_tables T Hlen) as (st & _ & _ & _ & Hrun & _).
  exists st. split; [done|]. intros e He.
  destruct (ledger_event_origin T st e Hrun He)
    as (r & f & Hr & Hres & Hpos & Hcomp & Hleg & Hdate & Hkind).
  exists r, f. repeat split; try done.
  - destruct Hkind as [(Hty & _)|[(_ & Ham & _)|(_ & Ham & _)]]; [done|lia|lia].
  - destruct Hkind as [(Hty & _)|[(Hty & _)|(Hty & _)]]; rewrite Hty; try done.
    by destruct (lr_is_cancelled r).
Qed.

(** X10.  A component that no receipt of an enrollment pays has no event in
    the ledger of that enrollment, whatever balance the snapshots show for
    it: charges are created only together with a payment. *)
Theorem unpaid_component_has_no_event (T : tables) (E : string) (f : field) :
  (0 < length (legacy_receipts T))%nat ->
  Forall (fun r => resolved T r = Some E -> amount_of r f <= 0)
         (legacy_receipts T) ->
  ∃ st : state,
    transform_all_receipts T state_init = Ok st
    ∧ ∀ e, e ∈ transformed_events st ->
        ¬ (e_enrollment_id e = E
           ∧ e_fee_component_id e = fc_id (fee_component_mappings f)).
Proof.
  intros Hlen Hunpaid.
  destruct (transform_all_receipts_tables T Hlen) as (st & _ & _ & _ & Hrun & _).
  exists st. split; [done|]. intros e He [Henr Hcomp].
  destruct (ledger_event_origin T st e Hrun He)
    as (r & f' & Hr & Hres & Hpos & Hcomp' & _).
  rewrite Hcomp in Hcomp'. apply fc_id_inj in Hcomp' as <-.
  rewrite Henr in Hres.
  pose proof (proj1 (Forall_forall _ _) Hunpaid r Hr Hres). lia.
Qed.
End Events.

Lemma ledger_event_shapes_witness :
  (0 < length (legacy_receipts Sample.admission_then_tuition))%nat
  ∧ ∃ st : state,
      transform_all_receipts (H := iso_dates) Sample.admission_then_tuition
                             state_init = Ok st
      ∧ ∀ e, e ∈ transformed_events st ->
          e_amount e ≠ 0
          ∧ (e_event_type e = CHARGE_CREATED <-> e_receipt_id e = None)
          ∧ (e_event_type e = CHARGE_CREATED ->
             e_amount e = e_running_balance e ∧ 0 < e_amount e)
          ∧ (e_amount e < 0 -> e_event_type e = PAYMENT_RECEIVED)
          ∧ (e_event_type e = PAYMENT_CANCELLED ->
             0 < e_amount e ∧ e_running_balance e < 0).
Proof.
  split; [simpl; lia|].
  apply (@ledger_event_shapes iso_dates Sample.admission_then_tuition).
  simpl; lia.
Defined.

Lemma ledger_events_have_a_source_witness :
  (0 < length (legacy_receipts (Sample.one_receipt Sample.tuition_100_cancelled)))%nat
  ∧ ∃ st : state,
      transform_all_receipts (H := iso_dates)
        (Sample.one_receipt Sample.tuition_100_cancelled) state_init = Ok st
      ∧ ∀ e, e ∈ transformed_events st ->
          ∃ (r : legacy_receipt) (f : field),
            r ∈ legacy_receipts (Sample.one_receipt Sample.tuition_100_cancelled)
            ∧ resolved (Sample.one_receipt Sample.tuition_100_cancelled) r
              = Some (e_enrollment_id e)
            ∧ e_legacy_receipt_id e = lr_id r
            ∧ e_event_date e = lr_fee_date r
            ∧ e_fee_component_id e = fc_id (fee_component_mappings f)
            ∧ 0 < amount_of r f
            ∧ (e_event_type e ≠ CHARGE_CREATED ->
               Z.abs (e_amount e) = amount_of r f)
            ∧ (e_event_type e = PAYMENT_CANCELLED -> lr_is_cancelled r = true).
Proof.
  split; [simpl; lia|].
  apply (@ledger_events_have_a_source iso_dates
           (Sample.one_receipt Sample.tuition_100_cancelled)).
  simpl; lia.
Defined.

Lemma unpaid_component_has_no_event_witness :
  (0 < length (legacy_receipts Sample.admission_then_tuition))%nat
  ∧ Forall (fun r => resolved Sample.admission_then_tuition r = Some "E-1"
                     -> amount_of r sec_fee <= 0)
           (legacy_receipts Sample.admission_then_tuition)
  ∧ ∃ st : state,
      transform_all_receipts (H := iso_dates) Sample.admission_then_tuition
                             state_init = Ok st
      ∧ ∀ e, e ∈ transformed_events st ->
          ¬ (e_enrollment_id e = "E-1"
             ∧ e_fee_component_id e = fc_id (fee_component_mappings sec_fee)).
Proof.
  assert (Hunpaid :
            Forall (fun r => resolved Sample.admission_then_tuition r = Some "E-1"
                             -> amount_of r sec_fee <= 0)
                   (legacy_receipts Sample.admission_then_tuition)).
  { repeat (constructor; [intros _; vm_compute; discriminate|]). constructor. }
  split; [simpl; lia|]. split; [exact Hunpaid|].
  apply (@unpaid_component_has_no_event iso_dates Sample.admission_then_tuition
           "E-1" sec_fee).
  - simpl; lia.
  - exact Hunpaid.
Defined.


(** ** Allocated amounts and the total of a receipt *)





Section Allocated.
Context `{DateParser}.

End Allocated.



(** ** Grouping and ordering the receipts *)

(** X12.  The grouping loop partitions the resolved receipts by enrollment:
    the keys of [enrollment_receipts] are distinct, and the receipts under a
    key are the receipts that resolve to it, in the order of the legacy
    file; no group is empty. *)
Theorem group_receipts_partition (T : tables) :
  NoDup (group_receipts T).*1
  ∧ ∀ (E : string) (rs : list legacy_receipt),
      (E, rs) ∈ group_receipts T
      <-> rs ≠ [] ∧ rs = List.filter (of_enrollment T E) (legacy_receipts T).
Proof.
  split; [apply group_receipts_NoDup|]. intros E rs. split.
  - intros Hin. apply group_receipts_elem in Hin as (-> & first & rest & Hrs & _).
    by rewrite Hrs.
  - intros [Hne ->]. apply dict_get_elem_of. rewrite group_receipts_get.
    by destruct (List.filter _ _).
Qed.



Section StudentReceipts.
Context `{DateParser}.

End StudentReceipts.

(** ** The student identifier inside an enrollment code *)








(** ** Text: [strip] and [upper] *)

Lemma string_app_cons (x : ascii) (a b : string) :
  String x a +:+ b = String x (a +:+ b).
Proof. reflexivity. Qed.

Lemma string_app_assoc (a b c : string) : (a +:+ b) +:+ c = a +:+ b +:+ c.
Proof. induction a as [|x a IH]; [done|]. by rewrite !string_app_cons, IH. Qed.

Lemma string_app_nil (a : string) : a +:+ "" = a.
Proof. induction a as [|x a IH]; [done|]. by rewrite string_app_cons, IH. Qed.

Lemma rev_app_append (s t : string) :
  String.rev_app s t = String.rev s +:+ t.
Proof.
  unfold String.rev. revert t. induction s as [|a s IH]; intros t; [done|].
  cbn [String.rev_app]. rewrite (IH (String a t)), (IH (String a "")).
  by rewrite string_app_assoc.
Qed.

Lemma string_rev_cons (a : ascii) (s : string) :
  String.rev (String a s) = String.rev s +:+ String a "".
Proof. unfold String.rev at 1. cbn [String.rev_app]. apply rev_app_append. Qed.

Lemma string_rev_app (s t : string) :
  String.rev (s +:+ t) = String.rev t +:+ String.rev s.
Proof.
  induction s as [|a s IH].
  - change (String.rev t = String.rev t +:+ ""). by rewrite string_app_nil.
  - rewrite string_app_cons, !string_rev_cons, IH.
    by rewrite string_app_assoc.
Qed.

Lemma blank_app (s t : string) : blank (s +:+ t) = blank s && blank t.
Proof.
  induction s as [|a s IH]; [done|]. rewrite string_app_cons. cbn [blank].
  rewrite IH. by rewrite andb_assoc.
Qed.

Lemma blank_rev (s : string) : blank (String.rev s) = blank s.
Proof.
  induction s as [|a s IH]; [done|].
  rewrite string_rev_cons, blank_app, IH. cbn [blank]. rewrite andb_true_r.
  apply andb_comm.
Qed.

Lemma lstrip_blank (p s : string) :
  blank p = true -> Text.lstrip (p +:+ s) = Text.lstrip s.
Proof.
  induction p as [|a p IH]; [done|]. rewrite string_app_cons.
  cbn [blank Text.lstrip].
  intros [Ha Hp]%andb_true_iff. rewrite Ha. by apply IH.
Qed.

Lemma lstrip_blank_nil (p : string) : blank p = true -> Text.lstrip p = "".
Proof.
  intros Hp. rewrite <- (string_app_nil p). by rewrite lstrip_blank.
Qed.

Lemma lstrip_not_blank (s t : string) :
  blank s = false -> Text.lstrip (s +:+ t) = Text.lstrip s +:+ t.
Proof.
  induction s as [|a s IH]; [done|]. rewrite string_app_cons.
  cbn [blank Text.lstrip].
  destruct (Text.py_isspace a); [|done]. cbn [andb]. apply IH.
Qed.

Lemma rstrip_blank (s p : string) :
  blank p = true -> Text.rstrip (s +:+ p) = Text.rstrip s.
Proof.
  intros Hp. unfold Text.rstrip.
  by rewrite string_rev_app, lstrip_blank by by rewrite blank_rev.
Qed.

Lemma strip_padding (pad1 pad2 s : string) :
  blank pad1 = true -> blank pad2 = true ->
  Text.strip (pad1 +:+ s +:+ pad2) = Text.strip s.
Proof.
  intros H1 H2. unfold Text.strip. rewrite (lstrip_blank pad1) by done.
  destruct (blank s) eqn:Hs.
  - rewrite (lstrip_blank s) by done.
    by rewrite (lstrip_blank_nil pad2), (lstrip_blank_nil s).
  - rewrite lstrip_not_blank by done. by apply rstrip_blank.
Qed.

Lemma rstrip_cons (a : ascii) (s : string) :
  Text.py_isspace a = false ->
  Text.rstrip (String a s) = String a (Text.rstrip s).
Proof.
  intros Ha. unfold Text.rstrip. rewrite string_rev_cons.
  assert (Hl : ∀ u, Text.lstrip (u +:+ String a "")
                    = Text.lstrip u +:+ String a "").
  { induction u as [|c u IH].
    - change (Text.lstrip (String a "") = String a "").
      cbn [Text.lstrip]. by rewrite Ha.
    - rewrite string_app_cons. cbn [Text.lstrip].
      by destruct (Text.py_isspace c). }
  rewrite Hl, string_rev_app. done.
Qed.

Lemma py_isspace_upper_char (a : ascii) :
  Text.py_isspace (upper_char a) = Text.py_isspace a.
Proof. destruct a as [[] [] [] [] [] [] [] []]; reflexivity. Qed.

Lemma upper_char_idemp (a : ascii) : upper_char (upper_char a) = upper_char a.
Proof. destruct a as [[] [] [] [] [] [] [] []]; reflexivity. Qed.

Lemma upper_app (s t : string) : upper (s +:+ t) = upper s +:+ upper t.
Proof.
  induction s as [|a s IH]; [done|].
  rewrite string_app_cons. cbn [upper]. by rewrite string_app_cons, IH.
Qed.

Lemma upper_rev (s : string) : upper (String.rev s) = String.rev (upper s).
Proof.
  induction s as [|a s IH]; [done|]. cbn [upper].
  by rewrite !string_rev_cons, upper_app, IH.
Qed.

Lemma upper_lstrip (s : string) : upper (Text.lstrip s) = Text.lstrip (upper s).
Proof.
  induction s as [|a s IH]; [done|]. cbn [Text.lstrip upper].
  rewrite py_isspace_upper_char. by destruct (Text.py_isspace a).
Qed.

Lemma upper_strip (s : string) : upper (Text.strip s) = Text.strip (upper s).
Proof.
  unfold Text.strip, Text.rstrip.
  by rewrite upper_rev, upper_lstrip, upper_rev, upper_lstrip.
Qed.

Lemma upper_nil (s : string) : upper s = "" <-> s = "".
Proof. by destruct s. Qed.

(** X15.  [standardize_payment_method] looks at neither the case of the
    letters nor the white space around the text: two texts with the same
    upper-case form, one of them padded with white space, get the same
    payment method. *)
Theorem standardize_payment_method_insensitive (pad1 pad2 s t : string) :
  blank pad1 = true -> blank pad2 = true ->
  upper s = upper t ->
  standardize_payment_method (Some (pad1 +:+ s +:+ pad2))
  = standardize_payment_method (Some t).
Proof.
  intros H1 H2 Hupper.
  assert (Hlookup : ∀ x : string,
            standardize_payment_method (Some x)
            = from_option id "OTHER"
                (dict_get (upper (Text.strip x)) payment_method_mappings)).
  { intros x. unfold standardize_payment_method.
    destruct (decide (x = "")) as [->|]; done. }
  rewrite !Hlookup, strip_padding by done.
  by rewrite !upper_strip, Hupper.
Qed.

Lemma standardize_payment_method_insensitive_witness :
  blank " " = true ∧ blank "  " = true
  ∧ upper "Qr PhonePe" = upper "QR PHONEPE"
  ∧ standardize_payment_method (Some (" " +:+ "Qr PhonePe" +:+ "  "))
    = standardize_payment_method (Some "QR PHONEPE").
Proof.
  split; [reflexivity|]. split; [reflexivity|]. split; [reflexivity|].
  apply (standardize_payment_method_insensitive " " "  " "Qr PhonePe" "QR PHONEPE");
    reflexivity.
Defined.

(** ** Dates with a year written [00YY] *)

Lemma substring_all (s : string) : String.substring 0 (String.length s) s = s.
Proof. induction s as [|a s IH]; [done|]. cbn. by rewrite IH. Qed.

(** X16.  [safe_parse_date] reads a date whose text starts with [00] as the
    date with [20] in place of these two characters. *)
Theorem safe_parse_date_century `{DateParser} (s : string) :
  safe_parse_date (Some ("00" +:+ s)) = safe_parse_date (Some ("20" +:+ s)).
Proof.
  unfold safe_parse_date.
  rewrite !decide_False by done. cbv zeta.
  assert (Hstrip : ∀ a b : ascii,
            Text.py_isspace a = false -> Text.py_isspace b = false ->
            Text.strip (String a (String b s))
            = String a (String b (Text.rstrip s))).
  { intros a b Ha Hb. unfold Text.strip. cbn [Text.lstrip]. rewrite Ha.
    by rewrite !rstrip_cons. }
  change ("00" +:+ s) with (String "0" (String "0" s)).
  change ("20" +:+ s) with (String "2" (String "0" s)).
  rewrite !Hstrip by reflexivity.
  cbn [starts_with_00 String.length Nat.sub String.substring].
  rewrite Nat.sub_0_r, substring_all. reflexivity.
Qed.


(** ** Academic years *)

(** X17.  The academic year runs from July to June: a date in July or later
    and a date before July of the next calendar year get the same label. *)
Theorem academic_year_across_july `{DateParser} `{Calendar}
    (d1 d2 : option string) :
  7 <= month_of (safe_parse_date d1) ->
  month_of (safe_parse_date d2) < 7 ->
  year_of (safe_parse_date d2) = year_of (safe_parse_date d1) + 1 ->
  determine_academic_year d1 = determine_academic_year d2.
Proof.
  intros Hlate Hearly Hyear. unfold determine_academic_year. cbv zeta.
  rewrite (proj2 (Z.leb_le _ _) Hlate), (proj2 (Z.leb_gt _ _) Hearly), Hyear.
  by replace (year_of (safe_parse_date d1) + 1 - 1)
    with (year_of (safe_parse_date d1)) by lia.
Qed.

Lemma academic_year_across_july_witness :
  7 <= month_of (Calendar := iso_calendar)
         (safe_parse_date (H := iso_dates) (Some "2023-07-01"))
  ∧ month_of (Calendar := iso_calendar)
      (safe_parse_date (H := iso_dates) (Some "2024-06-30")) < 7
  ∧ year_of (Calendar := iso_calendar)
      (safe_parse_date (H := iso_dates) (Some "2024-06-30"))
    = year_of (Calendar := iso_calendar)
        (safe_parse_date (H := iso_dates) (Some "2023-07-01")) + 1
  ∧ determine_academic_year (H := iso_dates) (H0 := iso_calendar)
      (Some "2023-07-01")
    = determine_academic_year (H := iso_dates) (H0 := iso_calendar)
        (Some "2024-06-30").
Proof.
  split; [vm_compute; discriminate|]. split; [vm_compute; reflexivity|].
  split; [vm_compute; reflexivity|].
  apply (@academic_year_across_july iso_dates iso_calendar
           (Some "2023-07-01") (Some "2024-06-30")).
  - vm_compute; discriminate.
  - vm_compute; reflexivity.
  - vm_compute; reflexivity.
Defined.

Example academic_year_of_july :
  determine_academic_year (H := iso_dates) (H0 := iso_calendar)
    (Some "2023-07-01") = "2023-24".
Proof. vm_compute. reflexivity. Qed.

Example academic_year_of_missing_date :
  determine_academic_year (H := iso_dates) (H0 := iso_calendar) None = "2022-23".
Proof. vm_compute. reflexivity. Qed.

(** ** References between the tables *)

Lemma batch_pair_origin (T : tables) (n n2 : numbering) (s s2 : uid)
    (rs : list legacy_receipt) (bs : list batch) :
  batches_ok T n s rs bs n2 s2 ->
  ∀ (b : batch) (p : ledger_event * allocation_row),
    b ∈ bs -> p ∈ snd b ->
    (s <= rr_id (fst b))%nat
    ∧ ∃ (r : legacy_receipt) (f : field) (hi : uid),
        r ∈ rs ∧ f ∈ positive_fields r
        ∧ rr_legacy_receipt_id (fst b) = lr_id r
        ∧ component_rows_ok r (rr_enrollment_id (fst b)) (rr_id (fst b))
                            (S (rr_id (fst b))) hi f p.
Proof.
  induction 1 as [|n n1 n2 s s1 s2 r rs bs E number pairs Hres Hgen Hs Hpairs Hbs IH];
    intros b p Hb Hp; [by apply elem_of_nil in Hb|].
  apply elem_of_cons in Hb as [->|Hb].
  - cbn [fst snd] in *. split; [cbn; lia|].
    apply list_elem_of_lookup in Hp as [i Hi].
    destruct (Forall2_lookup_r _ _ _ _ _ Hpairs Hi) as (f & Hf & Hok).
    exists r, f, s1. split; [left|]. split; [by eapply list_elem_of_lookup_2|].
    split; [done|]. exact Hok.
  - destruct (IH b p Hb Hp) as (Hle & r' & f & hi & Hr' & Hf & Hleg & Hok).
    split; [lia|]. exists r', f, hi. split; [by right|done].
Qed.

Lemma elem_of_batch_events (bs : list batch) (e : ledger_event) :
  e ∈ flat_map (fun b : batch => (snd b).*1) bs ->
  ∃ b p, b ∈ bs ∧ p ∈ snd b ∧ e = fst p.
Proof.
  intros Hin. apply list_elem_of_In, in_flat_map in Hin as (b & Hb & Hin).
  apply list_elem_of_In in Hb, Hin.
  apply list_elem_of_fmap in Hin as (p & -> & Hp). by exists b, p.
Qed.

Lemma elem_of_batch_allocations (bs : list batch) (a : allocation_row) :
  a ∈ flat_map (fun b : batch => (snd b).*2) bs ->
  ∃ b p, b ∈ bs ∧ p ∈ snd b ∧ a = snd p.
Proof.
  intros Hin. apply list_elem_of_In, in_flat_map in Hin as (b & Hb & Hin).
  apply list_elem_of_In in Hb, Hin.
  apply list_elem_of_fmap in Hin as (p & -> & Hp). by exists b, p.
Qed.

Section References.
Context `{DateParser}.

Lemma history_event_ids (T : tables) (e : ledger_event) :
  e ∈ transformed_events (history_pass T state_init) ->
  ∀ u, e_receipt_id e = Some u ->
       (u < uuid_supply (history_pass T state_init))%nat.
Proof.
  destruct (history_pass_spec T state_init) as (rows & He & _ & _ & _ & _ & _ & Hall).
  cbv zeta in He, Hall. rewrite He. cbn [transformed_events state_init app].
  intros Hin u Hu. apply list_elem_of_lookup in Hin as [i Hi].
  destruct (Forall2_lookup_r _ _ _ _ _ Hall Hi) as ([E ev] & _ & Hok).
  destruct Hok as (_ & _ & _ & _ & _ & _ & _ & _ & Hlink).
  cbn [fst snd] in Hlink. destruct (fe_is_initial_charge ev).
  - by rewrite Hlink in Hu.
  - destruct Hlink as (u' & Hu' & Hrange). rewrite Hu' in Hu.
    injection Hu as <-. lia.
Qed.

(** X18.  Every allocation of a run joins a receipt row and a ledger event:
    its receipt link is the identifier of a receipt row, its event link is
    the identifier of a ledger event that is linked to the same row, and
    the allocation, the row and the event agree on the legacy receipt, the
    enrollment, the component and the amount. *)
Theorem allocations_join_rows_and_events (T : tables) :
  (0 < length (legacy_receipts T))%nat ->
  ∃ st : state,
    transform_all_receipts T state_init = Ok st
    ∧ ∀ a, a ∈ transformed_allocations st ->
        ∃ (row : receipt_row) (e : ledger_event),
          row ∈ transformed_receipts st
          ∧ e ∈ transformed_events st
          ∧ a_receipt_id a = rr_id row
          ∧ a_ledger_event_id a = e_id e
          ∧ e_receipt_id e = Some (rr_id row)
          ∧ a_legacy_record_id a = rr_legacy_receipt_id row
          ∧ e_legacy_receipt_id e = rr_legacy_receipt_id row
          ∧ a_enrollment_id a = rr_enrollment_id row
          ∧ e_enrollment_id e = rr_enrollment_id row
          ∧ a_fee_component_id a = e_fee_component_id e
          ∧ a_allocated_amount a = e_amount e
          ∧ 0 < a_allocated_amount a.
Proof.
  intros Hlen.
  destruct (transform_all_receipts_tables T Hlen)
    as (st & hist & bs & rowss & Hrun & _ & He & Hr & Ha & _ & Hbs & _).
  exists st. split; [done|]. intros a Hin. rewrite Ha in Hin.
  apply elem_of_batch_allocations in Hin as (b & p & Hb & Hp & ->).
  destruct (batch_pair_origin _ _ _ _ _ _ _ Hbs b p Hb Hp)
    as (_ & r & f & hi & _ & Hf & Hleg & Hok).
  apply elem_of_positive_fields, Z.ltb_lt in Hf.
  destruct Hok as (_ & _ & Henr & Hcomp & Ham & _ & Hlink & Hleg' & _
                   & Hrid & Hev & Hcomp' & Ham' & Henr' & Hleg'' & _).
  exists (fst b), (fst p). rewrite Hr, He.
  split; [apply list_elem_of_fmap; by exists b|].
  split.
  { apply elem_of_app. right. apply list_elem_of_In, in_flat_map.
    exists b. split; [by apply list_elem_of_In|].
    apply list_elem_of_In, list_elem_of_fmap. by exists p. }
  rewrite Hleg, Hrid, Hev, Hlink, Hleg', Hleg'', Henr, Henr', Hcomp, Hcomp', Ham, Ham'.
  repeat split; done.
Qed.

(** X19.  The receipt link of a ledger event.  An event with a negative
    amount (a payment event of the history pass) carries a link that is
    the identifier of no receipt row; a payment event with a positive
    amount is linked to the receipt row of its legacy receipt. *)
Theorem event_receipt_links (T : tables) :
  (0 < length (legacy_receipts T))%nat ->
  ∃ st : state,
    transform_all_receipts T state_init = Ok st
    ∧ ∀ e, e ∈ transformed_events st ->
        (e_amount e < 0 ->
         ∃ u, e_receipt_id e = Some u
              ∧ ∀ row, row ∈ transformed_receipts st -> rr_id row ≠ u)
        ∧ (0 < e_amount e -> e_event_type e ≠ CHARGE_CREATED ->
           ∃ row, row ∈ transformed_receipts st
                  ∧ e_receipt_id e = Some (rr_id row)
                  ∧ rr_legacy_receipt_id row = e_legacy_receipt_id e
                  ∧ rr_enrollment_id row = e_enrollment_id e).
Proof.
  intros Hlen.
  destruct (transform_all_receipts_tables T Hlen)
    as (st & hist & bs & rowss & Hrun & Hhist & He & Hr & _ & _ & Hbs & _).
  exists st. split; [done|]. intros e Hin. rewrite He in Hin.
  apply elem_of_app in Hin as [Hin|Hin].
  - rewrite <- Hhist in Hin.
    destruct (history_event_origin T e Hin)
      as (r & f & (_ & _ & Hpos & _ & _ & _ & Hkind) & Hhistory).
    pose proof (history_event_ids T e Hin) as Hids.
    destruct Hkind as [(Hty & Ham & _ & Hcharge & _)
                      |[(Hty & Ham & _ & [u Hu])|(Hty & Ham & _)]].
    + split; [lia|]. by intros _ Hne.
    + split; [|lia]. intros _. exists u. split; [done|].
      intros row Hrow Heq. rewrite Hr in Hrow.
      apply list_elem_of_fmap in Hrow as (b & -> & Hb).
      apply batches_ok_rows in Hbs as [_ Hrows].
      apply list_elem_of_lookup in Hb as [i Hi].
      destruct (Forall2_lookup_r _ _ _ _ _ Hrows Hi) as (r' & _ & _ & Hrange).
      specialize (Hids _ Hu). lia.
    + exfalso. destruct Hhistory as [Hc|Hneg]; [|lia].
      rewrite Hty in Hc. by destruct (lr_is_cancelled r).
  - apply elem_of_batch_events in Hin as (b & p & Hb & Hp & ->).
    destruct (batch_pair_origin _ _ _ _ _ _ _ Hbs b p Hb Hp)
      as (_ & r & f & hi & _ & Hf & Hleg & Hok).
    apply elem_of_positive_fields, Z.ltb_lt in Hf.
    destruct Hok as (_ & _ & Henr & _ & Ham & _ & Hlink & Hleg' & _).
    split; [lia|]. intros _ _. exists (fst b). rewrite Hr.
    split; [apply list_elem_of_fmap; by exists b|].
    by rewrite Hlink, Hleg, Hleg', Henr.
Qed.
End References.

Lemma allocations_join_rows_and_events_witness :
  (0 < length (legacy_receipts Sample.admission_then_tuition))%nat
  ∧ ∃ st : state,
      transform_all_receipts (H := iso_dates) Sample.admission_then_tuition
                             state_init = Ok st
      ∧ ∀ a, a ∈ transformed_allocations st ->
          ∃ (row : receipt_row) (e : ledger_event),
            row ∈ transformed_receipts st
            ∧ e ∈ transformed_events st
            ∧ a_receipt_id a = rr_id row
            ∧ a_ledger_event_id a = e_id e
            ∧ e_receipt_id e = Some (rr_id row)
            ∧ a_legacy_record_id a = rr_legacy_receipt_id row
            ∧ e_legacy_receipt_id e = rr_legacy_receipt_id row
            ∧ a_enrollment_id a = rr_enrollment_id row
            ∧ e_enrollment_id e = rr_enrollment_id row
            ∧ a_fee_component_id a = e_fee_component_id e
            ∧ a_allocated_amount a = e_amount e
            ∧ 0 < a_allocated_amount a.
Proof.
  split; [simpl; lia|].
  apply (@allocations_join_rows_and_events iso_dates Sample.admission_then_tuition).
  simpl; lia.
Defined.

Lemma event_receipt_links_witness :
  (0 < length (legacy_receipts Sample.two_tuition_receipts))%nat
  ∧ ∃ st : state,
      transform_all_receipts (H := iso_dates) Sample.two_tuition_receipts
                             state_init = Ok st
      ∧ ∀ e, e ∈ transformed_events st ->
          (e_amount e < 0 ->
           ∃ u, e_receipt_id e = Some u
                ∧ ∀ row, row ∈ transformed_receipts st -> rr_id row ≠ u)
          ∧ (0 < e_amount e -> e_event_type e ≠ CHARGE_CREATED ->
             ∃ row, row ∈ transformed_receipts st
                    ∧ e_receipt_id e = Some (rr_id row)
                    ∧ rr_legacy_receipt_id row = e_legacy_receipt_id e
                    ∧ rr_enrollment_id row = e_enrollment_id e).
Proof.
  split; [simpl; lia|].
  apply (@event_receipt_links iso_dates Sample.two_tuition_receipts).
  simpl; lia.
Defined.

(** ** The student table *)

Lemma student_lookup_fold (k : string) (rows : list student_row)
    (acc : gmap string string) :
  let step := fun (lookup : gmap string string) row =>
                match sr_legacy_student_id row with
                | Some legacy_student_id =>
                    <[legacy_student_id := sr_id row]> lookup
                | None => lookup
                end in
  fold_left step rows acc !! k
  = match List.find (fun row => bool_decide (sr_legacy_student_id row = Some k))
                    (rev rows) with
    | Some row => Some (sr_id row)
    | None => acc !! k
    end.
Proof.
  intros step. revert acc. induction rows as [|row rows IH]; intros acc; [done|].
  cbn [fold_left rev]. rewrite IH, List_find_app.
  destruct (List.find _ (rev rows)); [done|]. cbn [List.find].
  unfold step. destruct (sr_legacy_student_id row) as [l|].
  - destruct (decide (l = k)) as [->|Hne].
    + by rewrite bool_decide_eq_true_2, lookup_insert_eq.
    + rewrite bool_decide_eq_false_2 by congruence.
      by rewrite lookup_insert_ne.
  - by rewrite bool_decide_eq_false_2.
Qed.

(** X20.  [load_mappings] maps a legacy student identifier to the student of
    the last row of the student file that carries it; rows without a legacy
    identifier are skipped, and an identifier on no row is not mapped. *)
Theorem student_lookup_last_row_wins (files : input_files)
    (rows : list student_row) (legacy_student_id : string) :
  student_file files = Some rows ->
  snd (load_mappings files) !! legacy_student_id
  = sr_id <$>
      List.find
        (fun row => bool_decide (sr_legacy_student_id row = Some legacy_student_id))
        (rev rows).
Proof.
  intros Hfile. unfold load_mappings. rewrite Hfile. cbn [snd].
  rewrite student_lookup_fold. by destruct (List.find _ _).
Qed.

Lemma student_lookup_last_row_wins_witness :
  student_file Cases.files_with_two_students = Some Cases.two_student_rows
  ∧ snd (load_mappings Cases.files_with_two_students) !! "10384"
    = sr_id <$>
        List.find
          (fun row => bool_decide (sr_legacy_student_id row = Some "10384"))
          (rev Cases.two_student_rows).
Proof.
  split; [reflexivity|].
  apply (student_lookup_last_row_wins Cases.files_with_two_students
           Cases.two_student_rows "10384").
  reflexivity.
Defined.
